(** * Reconciliation core of the danawa / naver / google ETL pipeline

    A shallow embedding of the text normalizer, the candidate aggregator,
    the model registry and the monthly fact loaders, with the properties
    the specification states about them. *)

From stdpp Require Import gmap strings list fin_maps.
From Stdlib Require Import ZArith Lia Permutation DecimalString.

Local Open Scope Z_scope.

(* ===================================================================== *)
(** ** Python strings and the library functions the loaders call          *)
(* ===================================================================== *)

(** A Python [str] is a sequence of Unicode code points. *)
Abbreviation pystr := (list Z).

Module Py.

(** Decoder for the UTF-8 bytes of a string literal of this file, so that
    cells can be written as they appear in the source. *)
Fixpoint utf8_decode (bs : list Z) : pystr :=
  match bs with
  | [] => []
  | b :: r =>
      if b <? 128 then b :: utf8_decode r
      else if b <? 224 then
        match r with
        | b1 :: r1 => ((b - 192) * 64 + (b1 - 128)) :: utf8_decode r1
        | _ => []
        end
      else if b <? 240 then
        match r with
        | b1 :: b2 :: r2 =>
            ((b - 224) * 4096 + (b1 - 128) * 64 + (b2 - 128)) :: utf8_decode r2
        | _ => []
        end
      else
        match r with
        | b1 :: b2 :: b3 :: r3 =>
            ((b - 240) * 262144 + (b1 - 128) * 4096 + (b2 - 128) * 64 + (b3 - 128))
              :: utf8_decode r3
        | _ => []
        end
  end.

Definition lit (s : string) : pystr :=
  utf8_decode (map (fun a => Z.of_N (Ascii.N_of_ascii a)) (String.list_ascii_of_string s)).

(** Characters for which [str.isspace] holds; [str.strip()] and
    [str.split()] without arguments use this set. *)
Definition whitespace_codepoints : list Z :=
  [9; 10; 11; 12; 13; 28; 29; 30; 31; 32; 133; 160; 5760;
   8192; 8193; 8194; 8195; 8196; 8197; 8198; 8199; 8200; 8201; 8202;
   8232; 8233; 8239; 8287; 12288].

Definition isspace (c : Z) : bool := existsb (Z.eqb c) whitespace_codepoints.

(** Code points of the digit zero of every Unicode decimal-digit block
    (category Nd); each is followed by the digits one to nine.  The
    pattern [\d] of [re] on [str] and the constructor [int] both accept
    exactly these. *)
Definition decimal_zero_codepoints : list Z :=
  [48; 1632; 1776; 1984; 2406; 2534; 2662; 2790; 2918; 3046; 3174; 3302;
   3430; 3558; 3664; 3792; 3872; 4160; 4240; 6112; 6160; 6470; 6608; 6784;
   6800; 6992; 7088; 7232; 7248; 42528; 43216; 43264; 43472; 43504; 43600;
   44016; 65296; 66720; 68912; 69734; 69872; 69942; 70096; 70384; 70736;
   70864; 71248; 71360; 71472; 71904; 72016; 72784; 73040; 73120; 92768;
   92864; 93008; 120782; 120792; 120802; 120812; 120822; 123200; 123632;
   125264; 130032].

Fixpoint decimal_in (zeros : list Z) (c : Z) : option Z :=
  match zeros with
  | [] => None
  | z :: zeros' =>
      if (z <=? c) && (c <? z + 10) then Some (c - z) else decimal_in zeros' c
  end.

Definition digit_value (c : Z) : option Z := decimal_in decimal_zero_codepoints c.

Definition isdigit (c : Z) : bool :=
  match digit_value c with Some _ => true | None => false end.

(** [not s]: the empty string is the only falsy string. *)
Definition is_empty (s : pystr) : bool :=
  match s with [] => true | _ => false end.

Fixpoint lstrip_with (blank : Z -> bool) (s : pystr) : pystr :=
  match s with
  | [] => []
  | c :: s' => if blank c then lstrip_with blank s' else s
  end.

Fixpoint rstrip_with (blank : Z -> bool) (s : pystr) : pystr :=
  match s with
  | [] => []
  | c :: s' =>
      match rstrip_with blank s' with
      | [] => if blank c then [] else [c]
      | r => c :: r
      end
  end.

(** [s.strip()] *)
Definition strip (s : pystr) : pystr := rstrip_with isspace (lstrip_with isspace s).

(** [s.split()]: the maximal runs of non-whitespace characters.  [cur] is
    the token being read, most recent character first. *)
Fixpoint split_from (cur : pystr) (s : pystr) : list pystr :=
  match s with
  | [] => if is_empty cur then [] else [rev cur]
  | c :: s' =>
      if isspace c
      then (if is_empty cur then split_from [] s' else rev cur :: split_from [] s')
      else split_from (c :: cur) s'
  end.

Definition split (s : pystr) : list pystr := split_from [] s.

(** [s.replace(",", "")] *)
Definition comma : Z := 44.
Definition remove_commas (s : pystr) : pystr := filter (fun c => c ≠ comma) s.

(** [re.findall(r"\d+", s)]: the maximal runs of decimal digits, left to
    right.  [cur] is the run being read, most recent digit first. *)
Fixpoint findall_digits_from (cur : pystr) (s : pystr) : list pystr :=
  match s with
  | [] => if is_empty cur then [] else [rev cur]
  | c :: s' =>
      if isdigit c
      then findall_digits_from (c :: cur) s'
      else (if is_empty cur then findall_digits_from [] s'
            else rev cur :: findall_digits_from [] s')
  end.

Definition findall_digits (s : pystr) : list pystr := findall_digits_from [] s.

(** ["".join(parts)] *)
Definition join_empty (parts : list pystr) : pystr := concat parts.

(** [c in s] for a one-character string [c]. *)
Definition contains (c : Z) (s : pystr) : bool := existsb (Z.eqb c) s.

(** The body of an integer literal as [int] reads it in base ten: decimal
    digits, with single underscores allowed between two digits.
    [after_digit] tells whether the previous character was a digit. *)
Fixpoint int_body (acc : Z) (after_digit : bool) (s : pystr) : option Z :=
  match s with
  | [] => if after_digit then Some acc else None
  | c :: s' =>
      match digit_value c with
      | Some d => int_body (acc * 10 + d) true s'
      | None =>
          if (c =? 95) && after_digit then int_body acc false s' else None
      end
  end.

(** The blanks [int] passes over around a literal: those of [isspace]
    except the four ASCII separators U+001C to U+001F. *)
Definition int_blank (c : Z) : bool := isspace c && negb ((28 <=? c) && (c <=? 31)).

(** [int(s)] for a string [s]; [None] stands for [ValueError].  Integers
    are unbounded (the interpreter's optional cap on the number of digits
    is taken as switched off). *)
Definition int (s : pystr) : option Z :=
  match rstrip_with int_blank (lstrip_with int_blank s) with
  | 43 :: body => int_body 0 false body
  | 45 :: body => Z.opp <$> int_body 0 false body
  | body => int_body 0 false body
  end.

(** [str(n)] for an integer [n]. *)
Fixpoint uint_codepoints (u : Decimal.uint) : pystr :=
  match u with
  | Decimal.Nil => []
  | Decimal.D0 u' => 48 :: uint_codepoints u'
  | Decimal.D1 u' => 49 :: uint_codepoints u'
  | Decimal.D2 u' => 50 :: uint_codepoints u'
  | Decimal.D3 u' => 51 :: uint_codepoints u'
  | Decimal.D4 u' => 52 :: uint_codepoints u'
  | Decimal.D5 u' => 53 :: uint_codepoints u'
  | Decimal.D6 u' => 54 :: uint_codepoints u'
  | Decimal.D7 u' => 55 :: uint_codepoints u'
  | Decimal.D8 u' => 56 :: uint_codepoints u'
  | Decimal.D9 u' => 57 :: uint_codepoints u'
  end.

Definition str_of_int (n : Z) : pystr :=
  match Z.to_int n with
  | Decimal.Pos u => uint_codepoints u
  | Decimal.Neg u => 45 :: uint_codepoints u
  end.

(** [re.search(r"-?\d+(?:\.\d+)?", s).group(0)]: the leftmost match, each
    repetition taken greedily. *)
Fixpoint take_digits (s : pystr) : pystr * pystr :=
  match s with
  | c :: s' =>
      if isdigit c then let '(ds, r) := take_digits s' in (c :: ds, r) else ([], s)
  | [] => ([], [])
  end.

Definition number_at (s : pystr) : option pystr :=
  let '(sign, body) :=
    match s with
    | 45 :: s' => ([45], s')
    | _ => ([], s)
    end in
  match take_digits body with
  | ([], _) => None
  | (ds, 46 :: r) =>
      match take_digits r with
      | ([], _) => Some (sign ++ ds)
      | (fs, _) => Some (sign ++ ds ++ 46 :: fs)
      end
  | (ds, _) => Some (sign ++ ds)
  end.

Fixpoint search_number (s : pystr) : option pystr :=
  match number_at s with
  | Some m => Some m
  | None => match s with [] => None | _ :: s' => search_number s' end
  end.

(** All decimal digits of [s], in order, and the number they denote. *)
Definition digits_of (s : pystr) : pystr := List.filter isdigit s.

Definition decimal_value (ds : pystr) : Z :=
  fold_left (fun acc c => acc * 10 + default 0 (digit_value c)) ds 0.

End Py.

(* ===================================================================== *)
(** ** Normalizer ([danawa_normalizer.py])                                *)
(* ===================================================================== *)

Module Normalizer.

Definition down_glyph : Z := 9660.  (* U+25BC, black down-pointing triangle *)
Definition up_glyph : Z := 9650.    (* U+25B2, black up-pointing triangle *)

(** [parse_int_from_str]; the argument is a [str] cell, so the [None]
    guard of the source does not arise. *)
Definition parse_int_from_str (s : pystr) : option Z :=
  let s := Py.strip s in
  if Py.is_empty s then None
  else
    let digits := Py.findall_digits (Py.remove_commas s) in
    match digits with
    | [] => None
    | _ => Py.int (Py.join_empty digits)
    end.

(** [parse_change_field].  With no token at all the source would index
    an empty list; [split_strip_nonempty] below shows that the guards
    before it exclude that case. *)
Definition parse_change_field (s : pystr) : option Z :=
  if Py.is_empty s then None
  else
    let s := Py.strip s in
    if Py.is_empty s || bool_decide (s = Py.lit "-") then None
    else
      let parts := Py.split s in
      let diff_part :=
        match parts with
        | [p] => Some p
        | _ :: p :: _ => Some p
        | [] => None
        end in
      match diff_part with
      | None => None
      | Some diff_part =>
          let sign :=
            if Py.contains down_glyph diff_part then -1
            else if Py.contains up_glyph diff_part then 1
            else 1 in
          let digits := Py.findall_digits (Py.remove_commas diff_part) in
          match digits with
          | [] => None
          | _ => val ← Py.int (Py.join_empty digits); Some (sign * val)
          end
      end.

(** The delta a single token denotes: the sign from the down glyph, the
    magnitude from the token's digits, nothing without a digit. *)
Definition delta_of_token (t : pystr) : option Z :=
  match Py.digits_of t with
  | [] => None
  | ds => Some ((if Py.contains down_glyph t then -1 else 1) * Py.decimal_value ds)
  end.

(** The leading run of digits of a cell, thousands separators removed:
    its first maximal run of digits. *)
Definition leading_digit_run (s : pystr) : pystr :=
  hd [] (Py.findall_digits (Py.remove_commas s)).

(** [normalize_row]: the six normalized cells, or [None] for a rejected
    row. *)
Definition normalize_row (raw_row : list pystr) : option (list pystr) :=
  match raw_row with
  | [] => None
  | _ =>
      let raw_row := Py.strip <$> raw_row in
      let cell (i : nat) := default [] (raw_row !! i) in
      let fields :=
        if decide (7 ≤ length raw_row)%nat
        then Some (cell 0%nat, cell 2%nat, cell 3%nat, cell 4%nat, cell 5%nat, cell 6%nat)
        else if decide (6 ≤ length raw_row)%nat
        then Some (cell 0%nat, cell 1%nat, cell 2%nat, cell 3%nat, cell 4%nat, cell 5%nat)
        else None in
      match fields with
      | None => None
      | Some (rank, model_name, sales_str, share_str, mom_str, yoy_str) =>
          if Py.is_empty rank || Py.is_empty model_name then None
          else
            match parse_int_from_str sales_str with
            | None => None
            | Some sales_units =>
                let share_ratio :=
                  if Py.is_empty share_str then []
                  else default [] (Py.search_number (Py.remove_commas share_str)) in
                let mom_diff := parse_change_field mom_str in
                let yoy_diff := parse_change_field yoy_str in
                let mom_diff_str := from_option Py.str_of_int [] mom_diff in
                let yoy_diff_str := from_option Py.str_of_int [] yoy_diff in
                Some [rank; model_name; Py.str_of_int sales_units; share_ratio;
                      mom_diff_str; yoy_diff_str]
            end
      end
  end.

(** The loop of [normalize_folder] over the data rows of one file (the
    header row is consumed before it): empty rows and rejected rows are
    passed over, the others are collected in order. *)
Fixpoint normalize_rows (rows : list (list pystr)) : list (list pystr) :=
  match rows with
  | [] => []
  | row :: rows' =>
      match row with
      | [] => normalize_rows rows'
      | _ =>
          match normalize_row row with
          | None => normalize_rows rows'
          | Some norm => norm :: normalize_rows rows'
          end
      end
  end.

(** The cell a raw row keeps its volume in: the fourth of a row of seven
    cells or more, else the third. *)
Definition volume_cell (raw_row : list pystr) : pystr :=
  default [] (raw_row !! (if decide (7 ≤ length raw_row)%nat then 3 else 2)%nat).

Definition normalized_header : list pystr :=
  [Py.lit "순위"; Py.lit "모델명"; Py.lit "판매량"; Py.lit "점유율";
   Py.lit "전월대비"; Py.lit "전년대비"].

(** What [normalize_folder] writes for one input file whose lines are
    [lines] (header first): nothing when the file is empty or no row
    survives, else the canonical header and the normalized rows. *)
Definition normalize_file (lines : list (list pystr)) : option (list (list pystr)) :=
  match lines with
  | [] => None
  | _header :: rows =>
      match normalize_rows rows with
      | [] => None
      | normalized_rows => Some (normalized_header :: normalized_rows)
      end
  end.

End Normalizer.


(* ===================================================================== *)
(** ** Rows of a CSV file as [csv.DictReader] yields them                 *)
(* ===================================================================== *)

(** A row maps each header name to its cell; a column the line is too
    short for maps to [None], the reader's fill value. *)
Abbreviation csv_row := (gmap pystr (option pystr)).

Module Csv.

(** [row.get(name)] *)
Definition get (row : csv_row) (name : string) : option pystr :=
  mjoin (row !! Py.lit name).

(** [(row.get(name) or "").strip()] *)
Definition get_stripped (row : csv_row) (name : string) : pystr :=
  Py.strip (default [] (get row name)).

(** The row the reader builds from a header and one line of as many
    cells. *)
Definition of_cells (header : list pystr) (cells : list pystr) : csv_row :=
  list_to_map (zip header (Some <$> cells)).

End Csv.

(* ===================================================================== *)
(** ** Candidate aggregator ([extract_car_model_candidates.py])           *)
(* ===================================================================== *)

Module Candidates.

(** [a < b] on strings: lexicographic on code points. *)
Fixpoint str_ltb (a b : pystr) : bool :=
  match a, b with
  | [], [] => false
  | [], _ :: _ => true
  | _ :: _, [] => false
  | x :: a', y :: b' =>
      if x <? y then true else if y <? x then false else str_ltb a' b'
  end.

Record ModelStat := {
  brand_name : pystr;
  model_name_kr : pystr;
  first_month : option pystr;
  last_month : option pystr;
  months : gset pystr;
  total_sales : Z;
}.

(** [ModelStat.update] *)
Definition update (self : ModelStat) (month : pystr) (sales : Z) : ModelStat :=
  {| brand_name := brand_name self;
     model_name_kr := model_name_kr self;
     first_month :=
       match first_month self with
       | None => Some month
       | Some fm => if str_ltb month fm then Some month else Some fm
       end;
     last_month :=
       match last_month self with
       | None => Some month
       | Some lm => if str_ltb lm month then Some month else Some lm
       end;
     months := {[ month ]} ∪ months self;
     total_sales := total_sales self + sales |}.

Definition empty_stat (brand model : pystr) : ModelStat :=
  {| brand_name := brand; model_name_kr := model;
     first_month := None; last_month := None; months := ∅; total_sales := 0 |}.

(** The sales figure read from a row: [int] of the cell without commas,
    0 for a missing or empty cell and for one [int] refuses. *)
Definition sales_of_row (row : csv_row) : Z :=
  match Csv.get row "판매량" with
  | None | Some [] => 0
  | Some sales_str => default 0 (Py.int (Py.remove_commas sales_str))
  end.

(** One turn of the inner loop of [build_model_candidates]. *)
Definition observe (stats : gmap (pystr * pystr) ModelStat)
    (brand month : pystr) (row : csv_row) : gmap (pystr * pystr) ModelStat :=
  match Csv.get row "모델명" with
  | None | Some [] => stats
  | Some model_name =>
      let sales := sales_of_row row in
      let key := (brand, model_name) in
      let stat := default (empty_stat brand model_name) (stats !! key) in
      <[ key := update stat month sales ]> stats
  end.

(** A normalized file as the aggregator sees it: the brand of its
    folder, the month read from its name, its rows. *)
Definition snapshot : Type := pystr * pystr * list csv_row.

(** [build_model_candidates] over the files [iter_normalized_files]
    yields. *)
Definition build_model_candidates (files : list snapshot)
    : gmap (pystr * pystr) ModelStat :=
  fold_left
    (fun stats '(brand, month, rows) =>
       fold_left (fun stats row => observe stats brand month row) rows stats)
    files ∅.

(** The observations of a run, one per row, in the order they are read. *)
Definition observations (files : list snapshot) : list (pystr * pystr * csv_row) :=
  flat_map (fun '(brand, month, rows) => map (fun row => (brand, month, row)) rows) files.

(** One turn of the loop applied to an observation. *)
Definition observe1 (stats : gmap (pystr * pystr) ModelStat)
    (o : pystr * pystr * csv_row) : gmap (pystr * pystr) ModelStat :=
  observe stats (fst (fst o)) (snd (fst o)) (snd o).

(** The observations that count towards the candidate [key]. *)
Definition counts_for (key : pystr * pystr) (o : pystr * pystr * csv_row) : bool :=
  let '(brand, _, row) := o in
  match Csv.get row "모델명" with
  | None | Some [] => false
  | Some model_name => bool_decide (key = (brand, model_name))
  end.

Definition month_of (o : pystr * pystr * csv_row) : pystr := snd (fst o).

Definition sales_of (o : pystr * pystr * csv_row) : Z := sales_of_row (snd o).

Definition readings_for (key : pystr * pystr) (obs : list (pystr * pystr * csv_row))
    : list (pystr * pystr * csv_row) :=
  List.filter (counts_for key) obs.

(** The candidate a list of observations of one key folds to. *)
Definition stat_of (start : ModelStat) (mine : list (pystr * pystr * csv_row)) : ModelStat :=
  fold_left (fun st o => update st (month_of o) (sales_of o)) mine start.

(** The first month of a candidate is the least of its months, the last
    month the greatest; both are absent exactly when no month was seen. *)
Definition months_bounded (st : ModelStat) : Prop :=
  match first_month st with
  | None => months st = ∅
  | Some m => m ∈ months st /\ forall m', m' ∈ months st -> str_ltb m' m = false
  end
  /\ match last_month st with
     | None => months st = ∅
     | Some m => m ∈ months st /\ forall m', m' ∈ months st -> str_ltb m m' = false
     end.

(** A row of a normalized file for the model K5 with the given sales
    cell. *)
Definition sample_row_k5 (sales : string) : csv_row :=
  Csv.of_cells Normalizer.normalized_header
    [Py.lit "1"; Py.lit "K5"; Py.lit sales; Py.lit ""; Py.lit ""; Py.lit ""].

End Candidates.

(* ===================================================================== *)
(** ** Model registry ([load_car_model_from_candidates.py],               *)
(**    [load_danawa_meta_to_db.py])                                       *)
(* ===================================================================== *)

(** Library functions the registry code calls and this development
    leaves open: [str.lower] and the query part of a URL as
    [parse_qs(urlparse(url).query).get(name)] returns it. *)
Class PyLib := {
  str_lower : pystr -> pystr;
  query_values : pystr -> string -> option (list pystr);
}.

(** [BRAND_KR_MAP]: the brand codes of the crawler and the brand names
    of the store. *)
Definition BRAND_KR_MAP : gmap pystr pystr :=
  {[ Py.lit "hyundai" := Py.lit "현대"; Py.lit "kia" := Py.lit "기아" ]}.

(** An instance for plain ASCII text without percent escapes: letters A
    to Z are lowered, and the values of a query parameter are the
    non-empty texts after [name=] between the separators [&] of the part
    of the URL after [?] and before [#]. *)
Module AsciiLib.

Definition lower (s : pystr) : pystr :=
  map (fun c => if (65 <=? c) && (c <=? 90) then c + 32 else c) s.

(** [s] cut at every [sep]; [cur] is the piece being read, most recent
    character first. *)
Fixpoint cut_from (sep : Z) (cur s : pystr) : list pystr :=
  match s with
  | [] => [rev cur]
  | c :: s' => if c =? sep then rev cur :: cut_from sep [] s' else cut_from sep (c :: cur) s'
  end.

Fixpoint strip_prefix (p s : pystr) : option pystr :=
  match p, s with
  | [], _ => Some s
  | a :: p', b :: s' => if a =? b then strip_prefix p' s' else None
  | _ :: _, [] => None
  end.

Definition query (url : pystr) : pystr :=
  match cut_from 35 [] url with
  | before_fragment :: _ =>
      match cut_from 63 [] before_fragment with
      | _ :: q :: rest => concat (q :: map (fun p => 63 :: p) rest)
      | _ => []
      end
  | [] => []
  end.

Definition values (url : pystr) (name : string) : option (list pystr) :=
  match omap (fun p => v ← strip_prefix (Py.lit name ++ [61]) p;
                       if Py.is_empty v then None else Some v)
             (cut_from 38 [] (query url)) with
  | [] => None
  | vs => Some vs
  end.

End AsciiLib.

Definition ascii_lib : PyLib :=
  {| str_lower := AsciiLib.lower; query_values := AsciiLib.values |}.

Module Registry.

Record car_model_row := {
  model_id : Z;
  brand_name : pystr;
  model_name_kr : pystr;
  danawa_model_id : option Z;
  danawa_model_url : option pystr;
}.

#[global] Instance car_model_row_eq_dec : EqDecision car_model_row.
Proof. solve_decision. Defined.

(** The table [car_model]: its rows in insertion order and the value the
    store gives [model_id] on the next insert. *)
Record car_model := {
  rows : list car_model_row;
  next_model_id : Z;
}.

(** [SELECT ... WHERE brand_name = :b AND model_name_kr = :m], first row *)
Definition select_by_name (t : list car_model_row) (brand model : pystr)
    : option car_model_row :=
  List.find (fun r => bool_decide (brand_name r = brand /\ model_name_kr r = model)) t.

(** [INSERT INTO car_model (...) VALUES (NULL, :b, :m, NULL)] *)
Definition insert_model (t : car_model) (brand model : pystr) : car_model :=
  {| rows := rows t ++
       [ {| model_id := next_model_id t; brand_name := brand; model_name_kr := model;
            danawa_model_id := None; danawa_model_url := None |} ];
     next_model_id := next_model_id t + 1 |}.

(** A line of [car_model_candidates.csv]: the two columns the loader
    reads. *)
Record candidate := {
  cand_brand_name : pystr;
  cand_model_name_kr : pystr;
}.

(** One turn of the loop of [upsert_car_model]. *)
Definition register (t : car_model) (row : candidate) : car_model :=
  let brand_name := Py.strip (cand_brand_name row) in
  let model_name_kr := Py.strip (cand_model_name_kr row) in
  match select_by_name (rows t) brand_name model_name_kr with
  | Some _existing => t
  | None => insert_model t brand_name model_name_kr
  end.

(** [upsert_car_model] *)
Definition upsert_car_model (candidates : list candidate) (t : car_model) : car_model :=
  fold_left register candidates t.

Definition natural_key (r : car_model_row) : pystr * pystr :=
  (brand_name r, model_name_kr r).

Definition candidate_key (c : candidate) : pystr * pystr :=
  (Py.strip (cand_brand_name c), Py.strip (cand_model_name_kr c)).

(** What a row created by registration looks like, relative to the table
    [t0] the run started from and the candidates [cands] it read. *)
Definition created_from (t0 : car_model) (cands : list candidate) (r : car_model_row) : Prop :=
  danawa_model_id r = None /\ danawa_model_url r = None
  /\ natural_key r ∈ candidate_key <$> cands
  /\ select_by_name (rows t0) (brand_name r) (model_name_kr r) = None.

(** **** Enrichment from the metadata files *)

Record MetaRow := {
  brand_code : pystr;
  month : pystr;
  rank : pystr;
  model_name : pystr;
  detail_url : option pystr;
  image_url : option pystr;
}.

(** [x or None] for a string [x] *)
Definition or_none (x : pystr) : option pystr :=
  match x with [] => None | _ => Some x end.

(** [extract_model_id_from_url] *)
Definition extract_model_id_from_url `{PyLib} (url : option pystr) : option Z :=
  match url with
  | None | Some [] => None
  | Some url =>
      let vals :=
        match query_values url "Model" with
        | Some (v :: vs) => Some (v :: vs)
        | _ => query_values url "model"
        end in
      match vals with
      | Some (v :: _) => Py.int v
      | _ => None
      end
  end.

(** [load_meta_csv] over the rows of one file *)
Definition load_meta_csv `{PyLib} (file : list csv_row) (brand_code_from_dir : pystr)
    : list MetaRow :=
  omap (fun r =>
    let brand_code :=
      match Csv.get_stripped r "brand" with
      | [] => brand_code_from_dir
      | b => b
      end in
    let model_name := Csv.get_stripped r "model_name" in
    if Py.is_empty model_name then None
    else Some {| brand_code := str_lower brand_code;
                 month := Csv.get_stripped r "month";
                 rank := Csv.get_stripped r "rank";
                 model_name := model_name;
                 detail_url := or_none (Csv.get_stripped r "detail_url");
                 image_url := or_none (Csv.get_stripped r "image_url") |}) file.

(** The counters of [run_loader]. *)
Record MetaStats := {
  total_rows : Z;
  no_model_match : Z;
  car_model_updated : Z;
  image_inserted : Z;
  image_skipped_duplicate : Z;
  danawa_id_conflict : Z;
}.

Definition initial_stats : MetaStats :=
  {| total_rows := 0; no_model_match := 0; car_model_updated := 0;
     image_inserted := 0; image_skipped_duplicate := 0; danawa_id_conflict := 0 |}.

(** The store as the metadata loader uses it: [car_model] and the
    (model, URL) pairs of [car_model_image], whose other columns the
    loader fills with constants. *)
Record MetaDb := {
  models : car_model;
  images : list (Z * pystr);
}.

(** [SELECT model_id FROM car_model WHERE danawa_model_id = :id LIMIT 1] *)
Definition select_by_danawa_id (t : list car_model_row) (id : Z) : option car_model_row :=
  List.find (fun r => bool_decide (danawa_model_id r = Some id)) t.

(** The [CASE] expressions of the [UPDATE] statement, on one row. *)
Definition set_external (id : option Z) (url : option pystr) (r : car_model_row)
    : car_model_row :=
  {| model_id := model_id r;
     brand_name := brand_name r;
     model_name_kr := model_name_kr r;
     danawa_model_id :=
       match id with
       | Some i => Some i
       | None => danawa_model_id r
       end;
     danawa_model_url :=
       match url with
       | Some (c :: u) => Some (c :: u)
       | _ => danawa_model_url r
       end |}.

(** [UPDATE car_model SET ... WHERE model_id = :model_id] *)
Definition update_external (t : car_model) (mid : Z) (id : option Z) (url : option pystr)
    : car_model :=
  {| rows := map (fun r => if decide (model_id r = mid) then set_external id url r else r)
               (rows t);
     next_model_id := next_model_id t |}.

(** The body of the loop of [process_meta_for_brand] for one metadata
    row; [brand_name_kr] is the store's name of the brand being
    processed. *)
Definition enrich `{PyLib} (brand_name_kr : pystr) (st : MetaDb * MetaStats) (mr : MetaRow)
    : MetaDb * MetaStats :=
  let '(db, stats) := st in
  let stats :=
    {| total_rows := total_rows stats + 1;
       no_model_match := no_model_match stats;
       car_model_updated := car_model_updated stats;
       image_inserted := image_inserted stats;
       image_skipped_duplicate := image_skipped_duplicate stats;
       danawa_id_conflict := danawa_id_conflict stats |} in
  let db_brand_name := default brand_name_kr (BRAND_KR_MAP !! brand_code mr) in
  match select_by_name (rows (models db)) db_brand_name (model_name mr) with
  | None =>
      (db, {| total_rows := total_rows stats;
              no_model_match := no_model_match stats + 1;
              car_model_updated := car_model_updated stats;
              image_inserted := image_inserted stats;
              image_skipped_duplicate := image_skipped_duplicate stats;
              danawa_id_conflict := danawa_id_conflict stats |})
  | Some row =>
      let mid := model_id row in
      let danawa_id := extract_model_id_from_url (detail_url mr) in
      let danawa_url := detail_url mr in
      let '(id_for_update, conflicts) :=
        match danawa_id with
        | None => (None, danawa_id_conflict stats)
        | Some id =>
            match select_by_danawa_id (rows (models db)) id with
            | Some conflict =>
                if decide (model_id conflict ≠ mid)
                then (None, danawa_id_conflict stats + 1)
                else (Some id, danawa_id_conflict stats)
            | None => (Some id, danawa_id_conflict stats)
            end
        end in
      let models' := update_external (models db) mid id_for_update danawa_url in
      let '(images', inserted, skipped) :=
        match image_url mr with
        | None | Some [] =>
            (images db, image_inserted stats, image_skipped_duplicate stats)
        | Some url =>
            if bool_decide ((mid, url) ∈ images db)
            then (images db, image_inserted stats, image_skipped_duplicate stats + 1)
            else (images db ++ [(mid, url)], image_inserted stats + 1,
                  image_skipped_duplicate stats)
        end in
      ({| models := models'; images := images' |},
       {| total_rows := total_rows stats;
          no_model_match := no_model_match stats;
          car_model_updated := car_model_updated stats + 1;
          image_inserted := inserted;
          image_skipped_duplicate := skipped;
          danawa_id_conflict := conflicts |})
  end.

(** [process_meta_for_brand]: [brand_dir] is [None] when the directory
    does not exist, else the rows of its metadata files in the order of
    their sorted names. *)
Definition process_meta_for_brand `{PyLib} (brand_dir : option (list (list csv_row)))
    (brand_code : pystr) (st : MetaDb * MetaStats) : MetaDb * MetaStats :=
  match brand_dir with
  | None => st
  | Some meta_files =>
      match BRAND_KR_MAP !! str_lower brand_code with
      | None | Some [] => st
      | Some brand_name_kr =>
          fold_left
            (fun st file =>
               fold_left (enrich brand_name_kr) (load_meta_csv file brand_code) st)
            meta_files st
      end
  end.

(** The store's constraints on [car_model]: [model_id] is a key and an
    external identifier that is present is held by one row only. *)
Definition well_formed (t : car_model) : Prop :=
  NoDup (model_id <$> rows t) /\ NoDup (omap danawa_model_id (rows t)).

(** Whether the enrichment of [row] with the identifier a metadata row
    carries collides with another entity holding it. *)
Definition collision (t : car_model) (row : car_model_row) (id : option Z) : Prop :=
  exists e other, id = Some e /\ select_by_danawa_id (rows t) e = Some other
                  /\ model_id other <> model_id row.

(** A registry of two entities, the first holding the external
    identifier 33191, and metadata rows for either that carry it. *)
Definition sample_models : car_model :=
  {| rows :=
       [ {| model_id := 1; brand_name := Py.lit "기아"; model_name_kr := Py.lit "K5";
            danawa_model_id := Some 33191;
            danawa_model_url := Some (Py.lit "https://auto.danawa.com/auto/?Work=model&Model=33191") |};
         {| model_id := 2; brand_name := Py.lit "기아"; model_name_kr := Py.lit "K8";
            danawa_model_id := None; danawa_model_url := None |} ];
     next_model_id := 3 |}.

Definition sample_db : MetaDb := {| models := sample_models; images := [] |}.

Definition sample_meta (name : string) (url : option pystr) : MetaRow :=
  {| brand_code := Py.lit "kia"; month := Py.lit "2024-01"; rank := Py.lit "1";
     model_name := Py.lit name; detail_url := url; image_url := None |}.

Definition sample_url : pystr :=
  Py.lit "https://auto.danawa.com/newcar/?Work=model&Model=33191".

End Registry.

(* ===================================================================== *)
(** ** Floating-point numbers                                             *)
(* ===================================================================== *)

(** The loaders use [float] only through the operations below; the
    development is carried out for any type [F] that provides them. *)
Class FloatOps (F : Type) := {
  (** [float(s)]; [None] stands for [ValueError] *)
  float_of_str : pystr -> option F;
  (** the float an integer converts to in mixed arithmetic *)
  float_of_int : Z -> F;
  (** [x / y] on floats *)
  float_div : F -> F -> F;
  (** [a / b] on integers, for [b] other than zero *)
  int_truediv : Z -> Z -> F;
  (** [sum(xs)] of a list of floats *)
  float_sum : list F -> F;
}.

(** An instance for evaluating examples: floats kept as the expressions
    that denote them, [float] defined on plain decimal numerals. *)
#[local] Unset Elimination Schemes.
Inductive float_expr :=
  | FloatOfStr (s : pystr)
  | FloatOfInt (n : Z)
  | FloatDiv (x y : float_expr)
  | IntTrueDiv (a b : Z)
  | FloatSum (xs : list float_expr).
#[local] Set Elimination Schemes.

Definition float_expr_of_str (s : pystr) : option float_expr :=
  match Py.number_at (Py.strip s) with
  | Some m => if bool_decide (m = Py.strip s) then Some (FloatOfStr m) else None
  | None => None
  end.

Definition symbolic_floats : FloatOps float_expr :=
  {| float_of_str := float_expr_of_str;
     float_of_int := FloatOfInt;
     float_div := FloatDiv;
     int_truediv := IntTrueDiv;
     float_sum := FloatSum |}.

(* ===================================================================== *)
(** ** Sales loaders ([load_danawa_sales_to_db.py],                       *)
(**    [load_danawa_sales_from_normalized.py])                            *)
(* ===================================================================== *)

Module Sales.

Record SalesRow (F : Type) := {
  brand_code : pystr;
  month : pystr;
  rank : Z;
  model_name : pystr;
  sales_units : Z;
  share_ratio : option F;
}.
Arguments brand_code {F} _.
Arguments month {F} _.
Arguments rank {F} _.
Arguments model_name {F} _.
Arguments sales_units {F} _.
Arguments share_ratio {F} _.

(** A row of [model_monthly_sales] without its key. *)
Record sales_fact (F : Type) := {
  fact_sales_units : Z;
  market_total_units : option Z;
  adoption_rate : option F;
  source : pystr;
  created_at : option Z;
}.
Arguments fact_sales_units {F} _.
Arguments market_total_units {F} _.
Arguments adoption_rate {F} _.
Arguments source {F} _.
Arguments created_at {F} _.

(** The counters of [run_loader]. *)
Record SalesStats := {
  total_rows : Z;
  no_model_match : Z;
  insert_or_update : Z;
}.

Definition DANAWA : pystr := Py.lit "DANAWA".

Section WithFloat.
Context {F : Type} `{!FloatOps F} `{!PyLib}.

(** [parse_int_from_str] of this loader (it does not strip). *)
Definition parse_int_from_str (s : pystr) : option Z :=
  match Py.findall_digits (Py.remove_commas s) with
  | [] => None
  | digits => Py.int (Py.join_empty digits)
  end.

(** [parse_share_ratio] *)
Definition parse_share_ratio (s : pystr) : option F :=
  if Py.is_empty s then None
  else
    match Py.search_number (Py.remove_commas s) with
    | None => None
    | Some m =>
        match float_of_str m with
        | None => None
        | Some val => Some (float_div val (float_of_int 100))
        end
    end.

(** [load_normalized_sales_csv]: [month_date] is the month read from the
    file's name, [file] the rows of the file. *)
Definition load_normalized_sales_csv (month_date : pystr) (file : list csv_row)
    (brand_code_from_dir : pystr) : list (SalesRow F) :=
  omap (fun r =>
    let rank_str := Csv.get_stripped r "순위" in
    let model_name := Csv.get_stripped r "모델명" in
    let sales_str := Csv.get_stripped r "판매량" in
    let share_str := Csv.get_stripped r "점유율" in
    if Py.is_empty model_name then None
    else
      let rank := default 0 (parse_int_from_str rank_str) in
      match parse_int_from_str sales_str with
      | None => None
      | Some sales_units =>
          Some {| brand_code := str_lower brand_code_from_dir;
                  month := month_date;
                  rank := rank;
                  model_name := model_name;
                  sales_units := sales_units;
                  share_ratio := parse_share_ratio share_str |}
      end) file.

(** The first loop over a file's rows: the total of each month. *)
Definition total_units_by_month (sales_rows : list (SalesRow F)) : gmap pystr Z :=
  fold_left
    (fun totals sr => <[ month sr := default 0 (totals !! month sr) + sales_units sr ]> totals)
    sales_rows ∅.

(** [x or None] for an integer [x] *)
Definition int_or_none (x : Z) : option Z := if x =? 0 then None else Some x.

(** The values bound to the [INSERT] for one row. *)
Definition fact_of_row (market_total_units : Z) (sr : SalesRow F) (created : option Z)
    : sales_fact F :=
  {| fact_sales_units := sales_units sr;
     market_total_units := int_or_none market_total_units;
     adoption_rate :=
       match share_ratio sr with
       | Some share => Some share
       | None =>
           if market_total_units =? 0 then None
           else Some (int_truediv (sales_units sr) market_total_units)
       end;
     source := DANAWA;
     created_at := created |}.

(** [INSERT ... ON DUPLICATE KEY UPDATE] on [model_monthly_sales]: the
    four listed columns are overwritten, [created_at] is set on insert
    only. *)
Definition upsert (store : gmap (Z * pystr) (sales_fact F)) (key : Z * pystr)
    (new : option Z -> sales_fact F) (created_on_insert : option Z)
    : gmap (Z * pystr) (sales_fact F) :=
  match store !! key with
  | None => <[ key := new created_on_insert ]> store
  | Some old => <[ key := new (created_at old) ]> store
  end.

(** The second loop, for one row. *)
Definition reconcile (models : list Registry.car_model_row) (brand_name_kr : pystr)
    (totals : gmap pystr Z) (now : Z)
    (st : gmap (Z * pystr) (sales_fact F) * SalesStats) (sr : SalesRow F)
    : gmap (Z * pystr) (sales_fact F) * SalesStats :=
  let '(store, stats) := st in
  let db_brand_name := default brand_name_kr (BRAND_KR_MAP !! brand_code sr) in
  match Registry.select_by_name models db_brand_name (model_name sr) with
  | None =>
      (store, {| total_rows := total_rows stats + 1;
                 no_model_match := no_model_match stats + 1;
                 insert_or_update := insert_or_update stats |})
  | Some row =>
      let model_id := Registry.model_id row in
      let market_total_units := default 0 (totals !! month sr) in
      (upsert store (model_id, month sr) (fact_of_row market_total_units sr) (Some now),
       {| total_rows := total_rows stats + 1;
          no_model_match := no_model_match stats;
          insert_or_update := insert_or_update stats + 1 |})
  end.

(** The body of the loop over the files, for the rows loaded from one. *)
Definition process_sales_rows (models : list Registry.car_model_row) (brand_name_kr : pystr)
    (now : Z) (sales_rows : list (SalesRow F))
    (st : gmap (Z * pystr) (sales_fact F) * SalesStats)
    : gmap (Z * pystr) (sales_fact F) * SalesStats :=
  match sales_rows with
  | [] => st
  | _ =>
      fold_left (reconcile models brand_name_kr (total_units_by_month sales_rows) now)
        sales_rows st
  end.

(** [process_sales_for_brand]: [brand_dir] is [None] when the directory
    does not exist, else its normalized sales files in the order of their
    sorted names, each with the month read from its name and its rows. *)
Definition process_sales_for_brand (models : list Registry.car_model_row)
    (brand_dir : option (list (pystr * list csv_row))) (brand_code : pystr) (now : Z)
    (st : gmap (Z * pystr) (sales_fact F) * SalesStats)
    : gmap (Z * pystr) (sales_fact F) * SalesStats :=
  match brand_dir with
  | None => st
  | Some sales_files =>
      match BRAND_KR_MAP !! str_lower brand_code with
      | None | Some [] => st
      | Some brand_name_kr =>
          fold_left
            (fun st '(month_date, file) =>
               process_sales_rows models brand_name_kr now
                 (load_normalized_sales_csv month_date file brand_code) st)
            sales_files st
      end
  end.

(** **** The loader of [load_danawa_sales_from_normalized.py] *)

(** [build_model_id_map] *)
Definition build_model_id_map (models : list Registry.car_model_row)
    : gmap (pystr * pystr) Z :=
  fold_left
    (fun mapping r =>
       <[ (Py.strip (Registry.brand_name r), Py.strip (Registry.model_name_kr r))
          := Registry.model_id r ]> mapping)
    models ∅.

(** The counters [load_sales] prints. *)
Record LoadCounts := {
  count_total_rows : Z;
  inserted_rows : Z;
  skipped_no_model : Z;
}.

(** The body of the inner loop of [load_sales]; a row inserted without
    [created_at] takes the column's default [created_default]. *)
Definition load_sales_row (model_id_map : gmap (pystr * pystr) Z)
    (brand_name month_date : pystr) (created_default : option Z)
    (st : gmap (Z * pystr) (sales_fact F) * LoadCounts) (row : csv_row)
    : gmap (Z * pystr) (sales_fact F) * LoadCounts :=
  let '(store, counts) := st in
  let total := count_total_rows counts + 1 in
  let model_name := Csv.get_stripped row "모델명" in
  let sales_str := Csv.get_stripped row "판매량" in
  if Py.is_empty model_name
  then (store, {| count_total_rows := total; inserted_rows := inserted_rows counts;
                  skipped_no_model := skipped_no_model counts |})
  else
    let sales_units :=
      if Py.is_empty sales_str then 0
      else default 0 (Py.int (Py.remove_commas sales_str)) in
    match model_id_map !! (brand_name, model_name) with
    | None =>
        (store, {| count_total_rows := total; inserted_rows := inserted_rows counts;
                   skipped_no_model := skipped_no_model counts + 1 |})
    | Some model_id =>
        (upsert store (model_id, month_date)
           (fun created =>
              {| fact_sales_units := sales_units; market_total_units := None;
                 adoption_rate := None; source := DANAWA; created_at := created |})
           created_default,
         {| count_total_rows := total; inserted_rows := inserted_rows counts + 1;
            skipped_no_model := skipped_no_model counts |})
    end.

(** [load_sales] over the files [iter_normalized_files] yields, each
    with its brand name, the month read from its name and its rows. *)
Definition load_sales (models : list Registry.car_model_row)
    (files : list (pystr * pystr * list csv_row)) (created_default : option Z)
    (store : gmap (Z * pystr) (sales_fact F))
    : gmap (Z * pystr) (sales_fact F) * LoadCounts :=
  let model_id_map := build_model_id_map models in
  fold_left
    (fun st '(brand_name, month_date, file) =>
       fold_left (load_sales_row model_id_map brand_name month_date created_default) file st)
    files
    (store, {| count_total_rows := 0; inserted_rows := 0; skipped_no_model := 0 |}).

(** The total of a batch: the sum of the units of its rows. *)
Definition batch_total (sales_rows : list (SalesRow F)) : Z :=
  foldr (fun sr acc => sales_units sr + acc) 0 sales_rows.

(** The model a row of a batch resolves to, if any. *)
Definition resolve (models : list Registry.car_model_row) (brand_name_kr : pystr)
    (sr : SalesRow F) : option Z :=
  Registry.model_id <$>
    Registry.select_by_name models
      (default brand_name_kr (BRAND_KR_MAP !! brand_code sr)) (model_name sr).

(** The last row of a batch that resolves to the model [mid] in the
    month [m]: the one whose values the store holds after the batch. *)
Definition last_for (models : list Registry.car_model_row) (brand_name_kr : pystr)
    (mid : Z) (m : pystr) (sales_rows : list (SalesRow F)) : option (SalesRow F) :=
  last (filter (fun sr => resolve models brand_name_kr sr = Some mid /\ month sr = m)
          sales_rows).

(** [store'] differs from [store] only by facts without market total
    and adoption rate. *)
Definition null_metrics_or (store : gmap (Z * pystr) (sales_fact F))
    (store' : gmap (Z * pystr) (sales_fact F)) : Prop :=
  forall key,
    store' !! key = store !! key
    \/ exists units created,
         store' !! key
         = Some {| fact_sales_units := units; market_total_units := None;
                   adoption_rate := None; source := DANAWA; created_at := created |}.

(** A batch of three models with the volumes 100, 150 and 250 and no
    share, and a registry that knows the three. *)
Definition sample_row (name : string) (units : Z) : SalesRow F :=
  {| brand_code := Py.lit "kia"; month := Py.lit "2024-01-01"; rank := 1;
     model_name := Py.lit name; sales_units := units; share_ratio := None |}.

Definition sample_batch : list (SalesRow F) :=
  [sample_row "K3" 100; sample_row "K5" 150; sample_row "K8" 250].

Definition sample_model (id : Z) (name : string) : Registry.car_model_row :=
  {| Registry.model_id := id; Registry.brand_name := Py.lit "기아";
     Registry.model_name_kr := Py.lit name;
     Registry.danawa_model_id := None; Registry.danawa_model_url := None |}.

Definition sample_models : list Registry.car_model_row :=
  [sample_model 1 "K3"; sample_model 2 "K5"; sample_model 3 "K8"].

(** A row of a normalized file whose volume cell holds no digit. *)
Definition sample_bad_row : csv_row :=
  Csv.of_cells Normalizer.normalized_header
    [Py.lit "4"; Py.lit "K9"; Py.lit "-"; Py.lit ""; Py.lit ""; Py.lit ""].

Definition initial_stats : SalesStats :=
  {| total_rows := 0; no_model_match := 0; insert_or_update := 0 |}.

(** The same batch as the rows of a normalized file. *)
Definition sample_file : list csv_row :=
  [ Csv.of_cells Normalizer.normalized_header
      [Py.lit "1"; Py.lit "K3"; Py.lit "100"; Py.lit ""; Py.lit ""; Py.lit ""];
    Csv.of_cells Normalizer.normalized_header
      [Py.lit "2"; Py.lit "K5"; Py.lit "150"; Py.lit ""; Py.lit ""; Py.lit ""];
    Csv.of_cells Normalizer.normalized_header
      [Py.lit "3"; Py.lit "K8"; Py.lit "250"; Py.lit ""; Py.lit ""; Py.lit ""] ].

End WithFloat.

End Sales.

(* ===================================================================== *)
(** ** Interest loaders ([load_naver_interest.py],                        *)
(**    [load_google_trend.py])                                            *)
(* ===================================================================== *)

Module Interest.

(** The exceptions that can leave the loaders. *)
Inductive exn := KeyError | ValueError | TypeError | DatabaseError.

Inductive result (A : Type) :=
  | Ok (a : A)
  | Raise (e : exn).
Arguments Ok {A} _.
Arguments Raise {A} _.

(** Sequencing: an exception ends the computation. *)
#[global] Instance result_bind : MBind result :=
  fun A B (k : A -> result B) (r : result A) =>
    match r with
    | Ok a => k a
    | Raise e => Raise e
    end.

(** A value of a column of [model_monthly_interest]; a column that is
    [NULL] is absent from the row. *)
Inductive cell (F : Type) :=
  | CInt (n : Z)
  | CFloat (x : F)
  | CTime (t : Z).
Arguments CInt {F} _.
Arguments CFloat {F} _.
Arguments CTime {F} _.

Record InterestPoint (F : Type) := {
  model_id : Z;
  month : pystr;
  naver_index : F;
}.
Arguments model_id {F} _.
Arguments month {F} _.
Arguments naver_index {F} _.

(** [month_from_date] *)
Definition month_from_date (date_str : pystr) : result pystr :=
  if decide (7 ≤ length date_str)%nat
  then Ok (take 7 date_str ++ Py.lit "-01")
  else Raise ValueError.

(** [int(row[name])]: a missing column raises [KeyError], the fill value
    [None] makes [int] raise [TypeError], text it refuses [ValueError]. *)
Definition int_field (row : csv_row) (name : string) : result Z :=
  match row !! Py.lit name with
  | None => Raise KeyError
  | Some None => Raise TypeError
  | Some (Some s) =>
      match Py.int s with
      | Some n => Ok n
      | None => Raise ValueError
      end
  end.

(** [row[name]] *)
Definition field (row : csv_row) (name : string) : result (option pystr) :=
  match row !! Py.lit name with
  | None => Raise KeyError
  | Some v => Ok v
  end.

Section WithFloat.
Context {F : Type} `{!FloatOps F}.

(** The dictionary [bucket] of [load_raw_csv], in insertion order. *)
Definition bucket_t : Type := list ((Z * pystr) * list F).

Definition bucket_get (bucket : bucket_t) (key : Z * pystr) : option (list F) :=
  snd <$> List.find (fun e => bool_decide (fst e = key)) bucket.

(** [bucket[key].append(ratio)] on a [defaultdict(list)] *)
Definition bucket_append (bucket : bucket_t) (key : Z * pystr) (ratio : F) : bucket_t :=
  match bucket_get bucket key with
  | Some _ =>
      map (fun e => if bool_decide (fst e = key) then (fst e, snd e ++ [ratio]) else e) bucket
  | None => bucket ++ [(key, [ratio])]
  end.

(** One turn of the reading loop of [load_raw_csv]. *)
Definition read_row (bucket : bucket_t) (row : csv_row) : result bucket_t :=
  match int_field row "model_id" with
  | Raise KeyError | Raise ValueError => Ok bucket
  | Raise e => Raise e
  | Ok model_id =>
      let date_str := Csv.get_stripped row "date" in
      let ratio_str := Csv.get_stripped row "ratio" in
      if Py.is_empty date_str || Py.is_empty ratio_str then Ok bucket
      else
        month ← month_from_date date_str;
        match float_of_str ratio_str with
        | None => Ok bucket
        | Some ratio => Ok (bucket_append bucket (model_id, month) ratio)
        end
  end.

Fixpoint read_rows (bucket : bucket_t) (rows : list csv_row) : result bucket_t :=
  match rows with
  | [] => Ok bucket
  | row :: rows' => bucket' ← read_row bucket row; read_rows bucket' rows'
  end.

(** [sum(ratios) / len(ratios)] *)
Definition average (ratios : list F) : F :=
  float_div (float_sum ratios) (float_of_int (Z.of_nat (length ratios))).

(** The second loop of [load_raw_csv]. *)
Definition points_of_bucket (bucket : bucket_t) : list (InterestPoint F) :=
  omap (fun '(key, ratios) =>
          match ratios with
          | [] => None
          | _ => Some {| model_id := fst key; month := snd key;
                         naver_index := average ratios |}
          end) bucket.

(** [load_raw_csv] over the rows of the file of the run. *)
Definition load_raw_csv (rows : list csv_row) : result (list (InterestPoint F)) :=
  bucket ← read_rows [] rows; Ok (points_of_bucket bucket).

(** [INSERT ... VALUES ... ON DUPLICATE KEY UPDATE c = VALUES(c), ...]:
    a new key takes the row [values]; on an existing key each column of
    [update_columns] takes the value [values] has for it. *)
Definition set_column (col : string) (v : option (cell F)) (row : gmap string (cell F))
    : gmap string (cell F) :=
  match v with
  | Some c => <[ col := c ]> row
  | None => delete col row
  end.

Definition insert_on_duplicate_update (store : gmap (Z * pystr) (gmap string (cell F)))
    (key : Z * pystr) (values : gmap string (cell F)) (update_columns : list string)
    : gmap (Z * pystr) (gmap string (cell F)) :=
  match store !! key with
  | None => <[ key := values ]> store
  | Some row =>
      <[ key := foldr (fun col row => set_column col (values !! col) row) row update_columns ]>
        store
  end.

(** The statement of [upsert_naver_interest] for one point; the columns
    [google_index] and [danawa_popularity] are inserted as [NULL]. *)
Definition naver_statement (store : gmap (Z * pystr) (gmap string (cell F)))
    (now : Z) (p : InterestPoint F) : gmap (Z * pystr) (gmap string (cell F)) :=
  insert_on_duplicate_update store (model_id p, month p)
    {[ "naver_index" := CFloat (naver_index p); "created_at" := CTime now ]}
    ["naver_index"].

(** [upsert_naver_interest] *)
Definition upsert_naver_interest (points : list (InterestPoint F))
    (store : gmap (Z * pystr) (gmap string (cell F))) (now : Z)
    : gmap (Z * pystr) (gmap string (cell F)) :=
  match points with
  | [] => store
  | _ => fold_left (fun store p => naver_statement store now p) points store
  end.

(** [run_loader] of the Naver loader; an exception leaves the store as
    it was. *)
Definition run_naver_loader (rows : list csv_row)
    (store : gmap (Z * pystr) (gmap string (cell F))) (now : Z)
    : result (gmap (Z * pystr) (gmap string (cell F))) :=
  points ← load_raw_csv rows; Ok (upsert_naver_interest points store now).

(** The statement of [load_google_trend]; the columns
    [naver_search_index], [danawa_pop_rank] and [danawa_pop_rank_size]
    are inserted as [NULL]. *)
Definition google_statement (store : gmap (Z * pystr) (gmap string (cell F)))
    (now : Z) (model_id : Z) (month : pystr) (google_trend_index : Z)
    : gmap (Z * pystr) (gmap string (cell F)) :=
  insert_on_duplicate_update store (model_id, month)
    {[ "google_trend_index" := CInt google_trend_index; "created_at" := CTime now ]}
    ["google_trend_index"].

(** One turn of the loop of [load_google_trend]: the store and the
    count of rows written.  A month that is [None] reaches the store as
    [NULL] for a key column, which the store refuses. *)
Definition google_row (now : Z)
    (st : gmap (Z * pystr) (gmap string (cell F)) * Z) (row : csv_row)
    : result (gmap (Z * pystr) (gmap string (cell F)) * Z) :=
  let parsed :=
    model_id ← int_field row "model_id";
    month ← field row "month";
    google_trend_index ← int_field row "google_trend_index";
    Ok (model_id, month, google_trend_index) in
  match parsed with
  | Raise KeyError | Raise ValueError => Ok st
  | Raise e => Raise e
  | Ok (model_id, None, _) => Raise DatabaseError
  | Ok (model_id, Some month, google_trend_index) =>
      Ok (google_statement st.1 now model_id month google_trend_index, st.2 + 1)
  end.

Fixpoint google_rows (now : Z)
    (st : gmap (Z * pystr) (gmap string (cell F)) * Z) (rows : list csv_row)
    : result (gmap (Z * pystr) (gmap string (cell F)) * Z) :=
  match rows with
  | [] => Ok st
  | row :: rows' => st' ← google_row now st row; google_rows now st' rows'
  end.

(** [load_google_trend] over the rows of the file of the run; an
    exception rolls the transaction back. *)
Definition load_google_trend (rows : list csv_row)
    (store : gmap (Z * pystr) (gmap string (cell F))) (now : Z)
    : result (gmap (Z * pystr) (gmap string (cell F))) :=
  st ← google_rows now (store, 0) rows; Ok st.1.

(** The value the store holds in a column of the row of a key; [None]
    when the row is absent or the column is [NULL]. *)
Definition cell_at (store : gmap (Z * pystr) (gmap string (cell F)))
    (key : Z * pystr) (col : string) : option (cell F) :=
  store !! key ≫= (fun row => row !! col).

(** [store'] keeps the column [col] of [store]: every row of [store] is
    still there with the value it had in that column, and a row that is
    new has [NULL] in it (unless the column is the insertion time). *)
Definition keeps_column (col : string)
    (store store' : gmap (Z * pystr) (gmap string (cell F))) : Prop :=
  forall key,
    match store !! key with
    | Some row => is_Some (store' !! key) /\ cell_at store' key col = row !! col
    | None => col <> "created_at" -> cell_at store' key col = None
    end.

(** **** The readings of a file, as the specification describes them *)

(** The reading a row contributes: its key and ratio when the model
    identifier is an integer, the date is not empty and the ratio is a
    number. *)
Definition reading (row : csv_row) : option ((Z * pystr) * F) :=
  match row !! Py.lit "model_id" with
  | Some (Some id_str) =>
      match Py.int id_str with
      | Some id =>
          let date_str := Csv.get_stripped row "date" in
          let ratio_str := Csv.get_stripped row "ratio" in
          if Py.is_empty date_str || Py.is_empty ratio_str then None
          else
            match float_of_str ratio_str with
            | Some ratio => Some ((id, take 7 date_str ++ Py.lit "-01"), ratio)
            | None => None
            end
      | None => None
      end
  | _ => None
  end.

(** The rows that stop the run: a model identifier the reader filled in
    with [None], and a date shorter than seven characters in a row that
    has an integer identifier and a date and a ratio that are not
    empty. *)
Definition stops (row : csv_row) : option exn :=
  match row !! Py.lit "model_id" with
  | Some None => Some TypeError
  | Some (Some id_str) =>
      match Py.int id_str with
      | Some _ =>
          let date_str := Csv.get_stripped row "date" in
          let ratio_str := Csv.get_stripped row "ratio" in
          if Py.is_empty date_str || Py.is_empty ratio_str then None
          else if decide (7 ≤ length date_str)%nat then None
          else Some ValueError
      | None => None
      end
  | None => None
  end.

Fixpoint first_stop (rows : list csv_row) : option exn :=
  match rows with
  | [] => None
  | row :: rows' =>
      match stops row with
      | Some e => Some e
      | None => first_stop rows'
      end
  end.

(** The ratios read for a key, in the order of the file. *)
Definition ratios_for (key : Z * pystr) (rows : list csv_row) : list F :=
  omap (fun row =>
          match reading row with
          | Some (k, ratio) => if bool_decide (k = key) then Some ratio else None
          | None => None
          end) rows.

(** The bucket after the rows that contribute a reading. *)
Definition add_reading (bucket : bucket_t) (row : csv_row) : bucket_t :=
  match reading row with
  | Some (key, ratio) => bucket_append bucket key ratio
  | None => bucket
  end.

(** The keys of a bucket are distinct and none of its lists is empty. *)
Definition bucket_ok (bucket : bucket_t) : Prop :=
  NoDup (fst <$> bucket) /\ Forall (fun e => snd e <> []) bucket.

Definition point_key (p : InterestPoint F) : Z * pystr := (model_id p, month p).

(** A line of the raw Naver file. *)
Definition sample_line (id date ratio : string) : csv_row :=
  Csv.of_cells [Py.lit "model_id"; Py.lit "date"; Py.lit "ratio"]
    [Py.lit id; Py.lit date; Py.lit ratio].

(** A store that holds a Google value for model 1 in January 2024. *)
Definition sample_store : gmap (Z * pystr) (gmap string (cell F)) :=
  {[ (1, Py.lit "2024-01-01") :=
       {[ "google_trend_index" := CInt 42; "created_at" := CTime 0 ]} ]}.

End WithFloat.

End Interest.
(* ===================================================================== *)
(** ** Properties                                                         *)
(* ===================================================================== *)

Example lit_glyphs : Py.lit "9118 697▲" = [57; 49; 49; 56; 32; 54; 57; 55; 9650].
Proof. reflexivity. Qed.

Example parse_change_up :
  Normalizer.parse_change_field (Py.lit "9118 697▲") = Some 697.
Proof. vm_compute. reflexivity. Qed.
Example parse_int_ex :
  Normalizer.parse_int_from_str (Py.lit "12,345대") = Some 12345.
Proof. vm_compute. reflexivity. Qed.
Example normalize_row_ex :
  Normalizer.normalize_row
    [Py.lit "1"; Py.lit ""; Py.lit "쏘렌토"; Py.lit "9,118"; Py.lit "17.7 %";
     Py.lit "9118 697▲"; Py.lit "6578 351▼"]
  = Some [Py.lit "1"; Py.lit "쏘렌토"; Py.lit "9118"; Py.lit "17.7"; Py.lit "697"; Py.lit "-351"].
Proof. vm_compute. reflexivity. Qed.

(** *** Facts about the string primitives *)

Section PyFacts.
Import Py.

Lemma isspace_In c : isspace c = true -> In c whitespace_codepoints.
Proof.
  unfold isspace. rewrite existsb_exists. intros (x & Hin & Heq).
  apply Z.eqb_eq in Heq. now subst.
Qed.

Lemma isspace_not_digit c : isspace c = true -> isdigit c = false.
Proof.
  intros H%isspace_In. unfold whitespace_codepoints in H. simpl in H.
  repeat (destruct H as [<- | H]; [vm_compute; reflexivity |]).
  contradiction.
Qed.

Lemma isdigit_not_space c : isdigit c = true -> isspace c = false.
Proof.
  intros Hd. destruct (isspace c) eqn:Hs; [|reflexivity].
  apply isspace_not_digit in Hs. congruence.
Qed.

Lemma digits_of_app s t : digits_of (s ++ t) = digits_of s ++ digits_of t.
Proof. unfold digits_of. apply List.filter_app. Qed.

Lemma digits_of_spaces ws : forallb isspace ws = true -> digits_of ws = [].
Proof.
  induction ws as [|w ws IH]; simpl; [reflexivity|].
  intros [Hw Hws]%andb_prop. rewrite (isspace_not_digit _ Hw). auto.
Qed.

Lemma lstrip_with_spec blank s :
  exists ws, s = ws ++ lstrip_with blank s /\ forallb blank ws = true.
Proof.
  induction s as [|c s IH]; simpl.
  - exists []. split; reflexivity.
  - destruct (blank c) eqn:Hc.
    + destruct IH as (ws & Heq & Hws). exists (c :: ws). split.
      * simpl. f_equal. exact Heq.
      * simpl. now rewrite Hc.
    + exists []. split; reflexivity.
Qed.

Lemma rstrip_with_spec blank s :
  exists ws, s = rstrip_with blank s ++ ws /\ forallb blank ws = true.
Proof.
  induction s as [|c s IH]; simpl.
  - exists []. split; reflexivity.
  - destruct IH as (ws & Heq & Hws).
    destruct (rstrip_with blank s) as [|r rs] eqn:Hr.
    + simpl in Heq. subst ws. destruct (blank c) eqn:Hc.
      * exists (c :: s). split; [reflexivity|]. simpl. now rewrite Hc.
      * exists s. split; [reflexivity|assumption].
    + exists ws. split; [|assumption]. simpl. f_equal. exact Heq.
Qed.

Lemma strip_spec s :
  exists ws1 ws2, s = ws1 ++ strip s ++ ws2 /\
    forallb isspace ws1 = true /\ forallb isspace ws2 = true.
Proof.
  destruct (lstrip_with_spec isspace s) as (ws1 & H1 & Hw1).
  destruct (rstrip_with_spec isspace (lstrip_with isspace s)) as (ws2 & H2 & Hw2).
  exists ws1, ws2. unfold strip. rewrite <- H2. auto.
Qed.

Lemma digits_of_strip s : digits_of (strip s) = digits_of s.
Proof.
  destruct (strip_spec s) as (ws1 & ws2 & Heq & H1 & H2).
  rewrite Heq at 2. rewrite !digits_of_app.
  rewrite (digits_of_spaces _ H1), (digits_of_spaces _ H2).
  now rewrite app_nil_r.
Qed.

Lemma digits_of_remove_commas s : digits_of (remove_commas s) = digits_of s.
Proof.
  induction s as [|c s IH]; [reflexivity|].
  unfold remove_commas. rewrite filter_cons. fold (remove_commas s).
  destruct (decide (c ≠ comma)) as [Hc|Hc].
  - simpl. now rewrite IH.
  - apply dec_stable in Hc. subst c. simpl. exact IH.
Qed.

Lemma digits_of_all_digits s : forallb isdigit (digits_of s) = true.
Proof.
  induction s as [|c s IH]; simpl; [reflexivity|].
  destruct (isdigit c) eqn:Hc; simpl; [now rewrite Hc|assumption].
Qed.

Lemma findall_digits_from_concat cur s :
  concat (findall_digits_from cur s) = rev cur ++ digits_of s.
Proof.
  revert cur; induction s as [|c s IH]; intros cur; simpl.
  - destruct cur; simpl; [reflexivity|]. now rewrite !app_nil_r.
  - destruct (isdigit c) eqn:Hc.
    + rewrite IH. simpl. now rewrite <- app_assoc.
    + destruct cur as [|d cur]; simpl.
      * apply IH.
      * now rewrite IH.
Qed.

Lemma findall_digits_join s : join_empty (findall_digits s) = digits_of s.
Proof. apply (findall_digits_from_concat [] s). Qed.

Lemma findall_digits_from_nil cur s :
  findall_digits_from cur s = [] <-> cur = [] /\ digits_of s = [].
Proof.
  revert cur; induction s as [|c s IH]; intros cur; simpl.
  - destruct cur; simpl; split; try tauto; try discriminate.
    intros [? _]; discriminate.
  - destruct (isdigit c) eqn:Hc.
    + rewrite IH. split; [intros [? _]; discriminate | intros [_ ?]; discriminate].
    + destruct cur; simpl.
      * apply IH.
      * split; [discriminate | intros [? _]; discriminate].
Qed.

Lemma findall_digits_nil s : findall_digits s = [] <-> digits_of s = [].
Proof. unfold findall_digits. rewrite findall_digits_from_nil. tauto. Qed.

Lemma int_body_digits ds : forall acc b,
  forallb isdigit ds = true -> ds <> [] \/ b = true ->
  int_body acc b ds
  = Some (fold_left (fun a c => a * 10 + default 0 (digit_value c)) ds acc).
Proof.
  induction ds as [|c ds IH]; intros acc b Hall Hne; simpl.
  - destruct Hne as [Hne | ->]; [congruence | reflexivity].
  - simpl in Hall. apply andb_prop in Hall as [Hc Hds].
    unfold isdigit in Hc. destruct (digit_value c) as [d|] eqn:Hd; [|discriminate].
    simpl. apply IH; auto.
Qed.

Lemma rstrip_with_id blank s :
  forallb (fun c => negb (blank c)) s = true -> rstrip_with blank s = s.
Proof.
  induction s as [|c s IH]; simpl; [reflexivity|].
  intros [Hc Hs]%andb_prop. rewrite (IH Hs).
  destruct s; [|reflexivity]. apply negb_true_iff in Hc. now rewrite Hc.
Qed.

Lemma strip_with_id blank s :
  forallb (fun c => negb (blank c)) s = true ->
  rstrip_with blank (lstrip_with blank s) = s.
Proof.
  intros Hns. destruct s as [|c s]; [reflexivity|].
  pose proof Hns as Hns'. simpl in Hns'. apply andb_prop in Hns' as [Hc _].
  apply negb_true_iff in Hc. simpl lstrip_with. rewrite Hc.
  now apply rstrip_with_id.
Qed.

Lemma int_blank_isspace c : int_blank c = true -> isspace c = true.
Proof. unfold int_blank. now intros [? _]%andb_prop. Qed.

Lemma digits_not_int_blank ds :
  forallb isdigit ds = true -> forallb (fun c => negb (int_blank c)) ds = true.
Proof.
  intros Hall. apply forallb_forall. intros c Hin. apply negb_true_iff.
  destruct (int_blank c) eqn:Hb; [|reflexivity].
  apply int_blank_isspace, isspace_not_digit in Hb.
  pose proof (proj1 (forallb_forall _ _) Hall c Hin). congruence.
Qed.

(** [int] applied to a non-empty string of decimal digits never fails and
    returns the number the digits denote. *)
Lemma int_digits ds :
  forallb isdigit ds = true -> ds <> [] -> int ds = Some (decimal_value ds).
Proof.
  intros Hall Hne. unfold int.
  rewrite (strip_with_id _ _ (digits_not_int_blank _ Hall)).
  assert (Hbody : int_body 0 false ds = Some (decimal_value ds)).
  { apply int_body_digits; auto. }
  destruct ds as [|c ds]; [congruence|].
  simpl in Hall. apply andb_prop in Hall as [Hc _].
  destruct (decide (c = 43)) as [->|H43]; [vm_compute in Hc; discriminate|].
  destruct (decide (c = 45)) as [->|H45]; [vm_compute in Hc; discriminate|].
  destruct c as [|p|p]; try exact Hbody.
  do 6 (destruct p as [p|p|]; try exact Hbody); congruence.
Qed.

Lemma int_join_findall s :
  digits_of s <> [] ->
  int (join_empty (findall_digits s)) = Some (decimal_value (digits_of s)).
Proof.
  intros Hne. rewrite findall_digits_join.
  apply int_digits; [apply digits_of_all_digits | assumption].
Qed.

Lemma split_from_spaces ws : forall cur,
  forallb isspace ws = true -> split_from cur ws = split_from cur [].
Proof.
  induction ws as [|w ws IH]; intros cur; simpl; [reflexivity|].
  intros [Hw Hws]%andb_prop. rewrite Hw.
  destruct cur; simpl.
  - now rewrite (IH [] Hws).
  - now rewrite (IH [] Hws).
Qed.

Lemma split_from_app_spaces s ws : forall cur,
  forallb isspace ws = true -> split_from cur (s ++ ws) = split_from cur s.
Proof.
  induction s as [|c s IH]; intros cur Hws; simpl.
  - now rewrite split_from_spaces.
  - destruct (isspace c); [destruct cur; simpl|]; now rewrite IH.
Qed.

Lemma split_spaces_app ws s :
  forallb isspace ws = true -> split (ws ++ s) = split s.
Proof.
  unfold split. induction ws as [|w ws IH]; simpl; [reflexivity|].
  intros [Hw Hws]%andb_prop. rewrite Hw. simpl. auto.
Qed.

Lemma split_strip s : split (strip s) = split s.
Proof.
  destruct (strip_spec s) as (ws1 & ws2 & Heq & H1 & H2).
  rewrite Heq at 2. rewrite split_spaces_app by assumption.
  unfold split. now rewrite split_from_app_spaces.
Qed.

Lemma split_from_nil cur s :
  split_from cur s = [] -> cur = [] /\ forallb isspace s = true.
Proof.
  revert cur; induction s as [|c s IH]; intros cur; simpl.
  - destruct cur; simpl; [auto|discriminate].
  - destruct (isspace c) eqn:Hc.
    + destruct cur; simpl; [|discriminate]. intros H%IH. tauto.
    + intros H%IH. destruct H; discriminate.
Qed.

Lemma strip_spaces s : forallb isspace s = true -> strip s = [].
Proof.
  unfold strip. induction s as [|c s IH]; simpl; [reflexivity|].
  intros [Hc Hs]%andb_prop. rewrite Hc. auto.
Qed.

(** The guard [if not s] after stripping leaves at least one token, so
    the indexing of [parts] in [parse_change_field] cannot fail. *)
Lemma split_strip_nonempty s : strip s <> [] -> split (strip s) <> [].
Proof.
  intros Hne Hsplit. rewrite split_strip in Hsplit.
  apply split_from_nil in Hsplit as [_ Hall].
  now apply strip_spaces in Hall.
Qed.

Lemma split_strip_empty s : strip s = [] -> split s = [].
Proof. intros H. rewrite <- split_strip, H. reflexivity. Qed.

End PyFacts.

(** *** Normalizer *)

Section NormalizerFacts.
Import Py Normalizer.

Lemma digits_then_int (t : pystr) (k : Z -> option Z) :
  match findall_digits (remove_commas t) with
  | [] => None
  | _ => val ← int (join_empty (findall_digits (remove_commas t))); k val
  end
  = match digits_of t with
    | [] => None
    | ds => k (decimal_value ds)
    end.
Proof.
  destruct (digits_of t) as [|d ds] eqn:Hd.
  - assert (Hnil : findall_digits (remove_commas t) = []).
    { apply findall_digits_nil. now rewrite digits_of_remove_commas. }
    now rewrite Hnil.
  - assert (Hne : digits_of (remove_commas t) <> []).
    { rewrite digits_of_remove_commas, Hd. discriminate. }
    rewrite (int_join_findall _ Hne), digits_of_remove_commas, Hd. simpl.
    destruct (findall_digits (remove_commas t)) eqn:Hf; [|reflexivity].
    apply findall_digits_nil in Hf. contradiction.
Qed.

Lemma parse_int_from_str_digits s :
  parse_int_from_str s
  = match digits_of s with
    | [] => None
    | ds => Some (decimal_value ds)
    end.
Proof.
  unfold parse_int_from_str.
  destruct (strip s) as [|c r] eqn:Hs; simpl.
  - rewrite <- (digits_of_strip s), Hs. reflexivity.
  - rewrite <- Hs.
    pose proof (digits_then_int (strip s) Some) as H. simpl in H.
    rewrite digits_of_strip in H. rewrite <- H.
    destruct (findall_digits (remove_commas (strip s))); [reflexivity|].
    now destruct (int _).
Qed.

Lemma delta_of_token_eq (t : pystr) :
  match findall_digits (remove_commas t) with
  | [] => None
  | _ =>
      val ← int (join_empty (findall_digits (remove_commas t)));
      Some ((if contains down_glyph t then -1
             else if contains up_glyph t then 1 else 1) * val)
  end = delta_of_token t.
Proof.
  rewrite (digits_then_int t
    (fun val => Some ((if contains down_glyph t then -1
                       else if contains up_glyph t then 1 else 1) * val))).
  unfold delta_of_token. destruct (digits_of t); [reflexivity|].
  now destruct (contains down_glyph t), (contains up_glyph t).
Qed.

Lemma parse_change_field_tokens s :
  parse_change_field s
  = match split s with
    | [] => None
    | [t] => delta_of_token t
    | _ :: t :: _ => delta_of_token t
    end.
Proof.
  unfold parse_change_field.
  destruct s as [|c0 s0]; [reflexivity|].
  change (is_empty (c0 :: s0)) with false. cbv iota.
  set (s := c0 :: s0).
  destruct (strip s) as [|c r] eqn:Hs.
  - simpl. now rewrite (split_strip_empty _ Hs).
  - change (is_empty (c :: r)) with false. rewrite orb_false_l.
    case_bool_decide as Hdash.
    + rewrite <- split_strip, Hs, Hdash. reflexivity.
    + rewrite <- Hs, split_strip.
      destruct (split s) as [|b [|t rest]]; [reflexivity| |];
        apply delta_of_token_eq.
Qed.

(** C7: the delta of a cell is the delta of its only token, or of its
    second token when there are two (or more, the first being the
    ignored baseline); a token denotes minus its digits when it holds the
    down glyph and plus its digits otherwise, and nothing when it holds
    no digit, as does a cell without any token; the four cells of the
    specification parse to +697, -351, +697 and null. *)
Theorem C7_parse_change_field :
  (forall s,
     parse_change_field s
     = match split s with
       | [] => None
       | [t] => delta_of_token t
       | _baseline :: t :: _ => delta_of_token t
       end)
  /\ (forall t,
       delta_of_token t
       = match digits_of t with
         | [] => None
         | ds => Some ((if contains down_glyph t then -1 else 1) * decimal_value ds)
         end)
  /\ parse_change_field (lit "9118 697▲") = Some 697
  /\ parse_change_field (lit "6578 351▼") = Some (-351)
  /\ parse_change_field (lit "697▲") = Some 697
  /\ parse_change_field (lit "") = None.
Proof.
  split; [exact parse_change_field_tokens|].
  split; [reflexivity|].
  repeat split; vm_compute; reflexivity.
Qed.

(** C8, what fails: the parser does not stop at the leading run of
    digits; for the cell [1.5] it returns 15, not 1. *)
Lemma C8_leading_run_counterexample :
  ~ (forall s,
       parse_int_from_str s
       = match leading_digit_run s with
         | [] => None
         | ds => Some (decimal_value ds)
         end).
Proof.
  intros H. specialize (H (lit "1.5")). vm_compute in H. discriminate.
Qed.

(** C8, as amended: the parser returns the integer denoted by all the
    decimal digits of the cell taken together in order (separators, unit
    suffixes and any other character between or around them are passed
    over), and fails exactly when the cell holds no digit. *)
Theorem C8_parse_int_all_digits s :
  parse_int_from_str s
  = match digits_of s with
    | [] => None
    | ds => Some (decimal_value ds)
    end.
Proof. apply parse_int_from_str_digits. Qed.

End NormalizerFacts.

(** *** Candidate aggregator *)

Section CandidateFacts.
Import Candidates.

Lemma str_ltb_irrefl a : str_ltb a a = false.
Proof.
  induction a as [|x a IH]; simpl; [reflexivity|]. now rewrite Z.ltb_irrefl.
Qed.

Lemma str_ltb_trans a : forall b c,
  str_ltb a b = true -> str_ltb b c = true -> str_ltb a c = true.
Proof.
  induction a as [|x a IH]; intros [|y b] [|z c]; simpl; try congruence.
  destruct (Z.ltb_spec x y), (Z.ltb_spec y x), (Z.ltb_spec y z),
    (Z.ltb_spec z y), (Z.ltb_spec x z), (Z.ltb_spec z x);
    try congruence; try lia.
  apply IH.
Qed.

Lemma str_ltb_total a : forall b,
  str_ltb a b = false -> str_ltb b a = false -> a = b.
Proof.
  induction a as [|x a IH]; intros [|y b]; simpl; try congruence.
  destruct (Z.ltb_spec x y), (Z.ltb_spec y x); try congruence; try lia.
  intros Hab Hba. assert (x = y) as -> by lia. f_equal. now apply IH.
Qed.

Lemma str_ltb_asym a b : str_ltb a b = true -> str_ltb b a = false.
Proof.
  intros Hab. destruct (str_ltb b a) eqn:Hba; [|reflexivity].
  pose proof (str_ltb_trans _ _ _ Hab Hba) as H.
  rewrite str_ltb_irrefl in H. discriminate.
Qed.

(** The three-way comparison of two months. *)
Lemma str_compare_cases a b :
  (str_ltb a b = true /\ str_ltb b a = false)
  \/ (a = b)
  \/ (str_ltb a b = false /\ str_ltb b a = true).
Proof.
  destruct (str_ltb a b) eqn:Hab.
  - left. split; [reflexivity|]. now apply str_ltb_asym.
  - destruct (str_ltb b a) eqn:Hba.
    + right. right. split; reflexivity.
    + right. left. now apply str_ltb_total.
Qed.

Ltac order3 a b c :=
  destruct (str_compare_cases a b) as [[? ?]|[?|[? ?]]];
  destruct (str_compare_cases b c) as [[? ?]|[?|[? ?]]];
  destruct (str_compare_cases a c) as [[? ?]|[?|[? ?]]];
  subst;
  repeat match goal with
  | H : str_ltb ?x ?y = _ |- context [str_ltb ?x ?y] => rewrite H
  | |- context [str_ltb ?x ?x] => rewrite (str_ltb_irrefl x)
  end;
  try reflexivity;
  try (exfalso;
       match goal with
       | H : str_ltb ?x ?x = true |- _ =>
           rewrite str_ltb_irrefl in H; discriminate
       | H1 : str_ltb ?x ?y = true, H2 : str_ltb ?y ?z = true |- _ =>
           pose proof (str_ltb_trans _ _ _ H1 H2); congruence
       end).

Lemma first_month_comm (fm : option pystr) m1 m2 :
  match
    match fm with
    | None => Some m1
    | Some f => if str_ltb m1 f then Some m1 else Some f
    end
  with
  | None => Some m2
  | Some f => if str_ltb m2 f then Some m2 else Some f
  end
  = match
      match fm with
      | None => Some m2
      | Some f => if str_ltb m2 f then Some m2 else Some f
      end
    with
    | None => Some m1
    | Some f => if str_ltb m1 f then Some m1 else Some f
    end.
Proof.
  destruct fm as [f|].
  - order3 m1 m2 f.
  - destruct (str_compare_cases m1 m2) as [[H1 H2]|[->|[H1 H2]]];
      rewrite ?H1, ?H2; reflexivity.
Qed.

Lemma last_month_comm (lm : option pystr) m1 m2 :
  match
    match lm with
    | None => Some m1
    | Some l => if str_ltb l m1 then Some m1 else Some l
    end
  with
  | None => Some m2
  | Some l => if str_ltb l m2 then Some m2 else Some l
  end
  = match
      match lm with
      | None => Some m2
      | Some l => if str_ltb l m2 then Some m2 else Some l
      end
    with
    | None => Some m1
    | Some l => if str_ltb l m1 then Some m1 else Some l
    end.
Proof.
  destruct lm as [l|].
  - order3 m1 m2 l.
  - destruct (str_compare_cases m1 m2) as [[H1 H2]|[->|[H1 H2]]];
      rewrite ?H1, ?H2; reflexivity.
Qed.

(** Two updates of one candidate commute. *)
Lemma update_comm st m1 s1 m2 s2 :
  update (update st m1 s1) m2 s2 = update (update st m2 s2) m1 s1.
Proof.
  unfold update; simpl. f_equal.
  - apply first_month_comm.
  - apply last_month_comm.
  - apply set_eq. intros m. rewrite !elem_of_union. tauto.
  - lia.
Qed.

Lemma update_names st m s :
  brand_name (update st m s) = brand_name st
  /\ model_name_kr (update st m s) = model_name_kr st.
Proof. split; reflexivity. Qed.

(** Two turns of the aggregation loop commute. *)
Lemma observe_comm stats b1 m1 r1 b2 m2 r2 :
  observe (observe stats b1 m1 r1) b2 m2 r2
  = observe (observe stats b2 m2 r2) b1 m1 r1.
Proof.
  unfold observe.
  destruct (Csv.get r1 "모델명") as [[|c1 n1]|]; try reflexivity;
    destruct (Csv.get r2 "모델명") as [[|c2 n2]|]; try reflexivity.
  set (k1 := (b1, c1 :: n1)). set (k2 := (b2, c2 :: n2)).
  destruct (decide (k1 = k2)) as [Heq|Hne].
  - assert (b1 = b2 /\ c1 :: n1 = c2 :: n2) as [-> Hn] by (inversion Heq; auto).
    rewrite <- Heq. rewrite !lookup_insert_eq. simpl.
    rewrite !insert_insert_eq. rewrite <- Hn. f_equal. apply update_comm.
  - rewrite (lookup_insert_ne _ k1 k2) by assumption.
    rewrite (lookup_insert_ne _ k2 k1) by congruence.
    now apply insert_insert_ne.
Qed.

Lemma fold_observe_perm (l1 l2 : list (pystr * pystr * csv_row)) :
  l1 ≡ₚ l2 -> forall stats, fold_left observe1 l1 stats = fold_left observe1 l2 stats.
Proof.
  induction 1 as [|o l l' _ IH|o1 o2 l|l l' l'' _ IH1 _ IH2]; intros stats; simpl.
  - reflexivity.
  - apply IH.
  - f_equal. unfold observe1. apply observe_comm.
  - now rewrite IH1.
Qed.

Lemma build_as_fold (files : list snapshot) : forall stats,
  fold_left
    (fun stats '(brand, month, rows) =>
       fold_left (fun stats row => observe stats brand month row) rows stats)
    files stats
  = fold_left observe1 (observations files) stats.
Proof.
  induction files as [|[[brand month] rows] files IH]; intros stats; simpl.
  - reflexivity.
  - rewrite fold_left_app, IH. f_equal.
    clear IH. revert stats. induction rows as [|row rows IHr]; intros stats; simpl.
    + reflexivity.
    + apply IHr.
Qed.

Lemma build_observations files :
  build_model_candidates files = fold_left observe1 (observations files) ∅.
Proof. apply build_as_fold. Qed.

(** C4: two runs of the aggregator whose observations are permutations
    of one another build the same candidates: same keys and, for each,
    the same first and last month, the same set of months and the same
    total. *)
Theorem C4_aggregation_order_independent (files1 files2 : list snapshot) :
  observations files1 ≡ₚ observations files2 ->
  build_model_candidates files1 = build_model_candidates files2.
Proof.
  intros Hperm. rewrite !build_observations. now apply fold_observe_perm.
Qed.

Lemma C4_witness :
  build_model_candidates
    [ (Py.lit "기아", Py.lit "2024-02", [sample_row_k5 "1,200"]);
      (Py.lit "기아", Py.lit "2024-01", [sample_row_k5 "900"; sample_row_k5 "30"]) ]
  = build_model_candidates
      [ (Py.lit "기아", Py.lit "2024-01", [sample_row_k5 "30"; sample_row_k5 "900"]);
        (Py.lit "기아", Py.lit "2024-02", [sample_row_k5 "1,200"]) ].
Proof.
  apply C4_aggregation_order_independent.
  unfold observations; simpl flat_map.
  etransitivity; [apply Permutation_cons_append|]. simpl.
  apply perm_swap.
Defined.

End CandidateFacts.

(** *** Candidate aggregator: what a candidate holds *)

Section CandidateContents.
Import Candidates.

Lemma observe1_lookup (stats : gmap (pystr * pystr) ModelStat)
    (o : pystr * pystr * csv_row) (key : pystr * pystr) :
  observe1 stats o !! key
  = if counts_for key o
    then Some (update (default (empty_stat key.1 key.2) (stats !! key))
                 (month_of o) (sales_of o))
    else stats !! key.
Proof.
  destruct o as [[brand month] row]. unfold observe1, observe, counts_for. simpl.
  destruct (Csv.get row "모델명") as [[|c name]|]; try reflexivity.
  case_bool_decide as Hk.
  - subst key. simpl. now rewrite lookup_insert_eq.
  - rewrite lookup_insert_ne by congruence. reflexivity.
Qed.

Lemma fold_observe1_lookup (obs : list (pystr * pystr * csv_row)) (key : pystr * pystr) :
  forall stats : gmap (pystr * pystr) ModelStat,
  fold_left observe1 obs stats !! key
  = match readings_for key obs with
    | [] => stats !! key
    | mine => Some (stat_of (default (empty_stat key.1 key.2) (stats !! key)) mine)
    end.
Proof.
  induction obs as [|o obs IH]; intros stats; [reflexivity|].
  cbn [fold_left]. rewrite IH, observe1_lookup. unfold readings_for. simpl.
  destruct (counts_for key o); [|reflexivity].
  now destruct (List.filter (counts_for key) obs).
Qed.

Lemma stat_of_names start mine :
  brand_name (stat_of start mine) = brand_name start
  /\ model_name_kr (stat_of start mine) = model_name_kr start.
Proof.
  revert start. induction mine as [|o mine IH]; intros start; [split; reflexivity|].
  apply (IH (update start (month_of o) (sales_of o))).
Qed.

Lemma stat_of_total start mine :
  total_sales (stat_of start mine)
  = total_sales start + foldr (fun o acc => sales_of o + acc) 0 mine.
Proof.
  revert start. induction mine as [|o mine IH]; intros start; simpl; [lia|].
  unfold stat_of in *. simpl. rewrite IH. simpl. lia.
Qed.

Lemma stat_of_months start mine :
  months (stat_of start mine) = months start ∪ list_to_set (month_of <$> mine).
Proof.
  revert start. induction mine as [|o mine IH]; intros start.
  - simpl. apply set_eq. intros m. rewrite elem_of_union, elem_of_empty. tauto.
  - unfold stat_of in *. cbn [fold_left]. rewrite IH, fmap_cons, list_to_set_cons.
    cbn [months update].
    apply set_eq. intros m. rewrite !elem_of_union. tauto.
Qed.

Lemma update_months_bounded st m s :
  months_bounded st -> months_bounded (update st m s).
Proof.
  intros [Hfirst Hlast]. split; simpl.
  - destruct (first_month st) as [f|].
    + destruct Hfirst as [Hin Hmin].
      destruct (str_ltb m f) eqn:Hmf.
      * split; [apply elem_of_union; left; now apply elem_of_singleton|].
        intros m' [->%elem_of_singleton|Hm']%elem_of_union; [apply str_ltb_irrefl|].
        specialize (Hmin m' Hm').
        destruct (str_ltb m' m) eqn:Hm'm; [|reflexivity].
        rewrite (str_ltb_trans _ _ _ Hm'm Hmf) in Hmin. discriminate.
      * split; [apply elem_of_union; now right|].
        intros m' [->%elem_of_singleton|Hm']%elem_of_union; auto.
    + split; [apply elem_of_union; left; now apply elem_of_singleton|].
      rewrite Hfirst. intros m' [->%elem_of_singleton|Hm']%elem_of_union;
        [apply str_ltb_irrefl | now apply elem_of_empty in Hm'].
  - destruct (last_month st) as [l|].
    + destruct Hlast as [Hin Hmax].
      destruct (str_ltb l m) eqn:Hlm.
      * split; [apply elem_of_union; left; now apply elem_of_singleton|].
        intros m' [->%elem_of_singleton|Hm']%elem_of_union; [apply str_ltb_irrefl|].
        specialize (Hmax m' Hm').
        destruct (str_ltb m m') eqn:Hmm'; [|reflexivity].
        rewrite (str_ltb_trans _ _ _ Hlm Hmm') in Hmax. discriminate.
      * split; [apply elem_of_union; now right|].
        intros m' [->%elem_of_singleton|Hm']%elem_of_union; auto.
    + split; [apply elem_of_union; left; now apply elem_of_singleton|].
      rewrite Hlast. intros m' [->%elem_of_singleton|Hm']%elem_of_union;
        [apply str_ltb_irrefl | now apply elem_of_empty in Hm'].
Qed.

Lemma stat_of_months_bounded start mine :
  months_bounded start -> months_bounded (stat_of start mine).
Proof.
  revert start. induction mine as [|o mine IH]; intros start Hb; [assumption|].
  apply (IH (update start (month_of o) (sales_of o))). now apply update_months_bounded.
Qed.

(** What the aggregator holds for a key: nothing when no observation
    counts towards it, else the candidate with the total of the sales and
    the set of the months of the observations that do, whose first and
    last month are the least and the greatest month of that set. *)
Lemma build_model_candidates_contents (files : list snapshot) (key : pystr * pystr) :
  match readings_for key (observations files) with
  | [] => build_model_candidates files !! key = None
  | mine =>
      exists st,
        build_model_candidates files !! key = Some st
        /\ brand_name st = key.1 /\ model_name_kr st = key.2
        /\ total_sales st = foldr (fun o acc => sales_of o + acc) 0 mine
        /\ months st = list_to_set (month_of <$> mine)
        /\ months_bounded st
  end.
Proof.
  rewrite build_observations, fold_observe1_lookup, lookup_empty.
  destruct (readings_for key (observations files)) as [|o mine]; [reflexivity|].
  exists (stat_of (empty_stat key.1 key.2) (o :: mine)). split; [reflexivity|].
  destruct (stat_of_names (empty_stat key.1 key.2) (o :: mine)) as [Hb Hm].
  rewrite Hb, Hm, stat_of_total, stat_of_months.
  split; [reflexivity|]. split; [reflexivity|]. split; [|split].
  - cbn [total_sales empty_stat]. lia.
  - cbn [months empty_stat]. apply set_eq. intros m.
    rewrite elem_of_union, elem_of_empty. tauto.
  - apply stat_of_months_bounded. split; reflexivity.
Qed.

End CandidateContents.

(** *** Model registry: registration of candidates *)

Section RegistrationFacts.
Import Registry.

Lemma select_by_name_app l l' b m :
  select_by_name (l ++ l') b m
  = match select_by_name l b m with
    | Some r => Some r
    | None => select_by_name l' b m
    end.
Proof.
  unfold select_by_name. induction l as [|r l IH]; simpl; [reflexivity|].
  now destruct (bool_decide _).
Qed.

Lemma select_by_name_Some l b m r :
  select_by_name l b m = Some r -> r ∈ l /\ natural_key r = (b, m).
Proof.
  unfold select_by_name. intros H. apply find_some in H as [Hin Hk].
  apply bool_decide_eq_true in Hk as [<- <-].
  split; [now apply list_elem_of_In | reflexivity].
Qed.

Lemma select_by_name_None l b m :
  select_by_name l b m = None <-> forall r, r ∈ l -> natural_key r <> (b, m).
Proof.
  unfold select_by_name. split.
  - intros H r Hin Hk. apply list_elem_of_In in Hin.
    pose proof (find_none _ _ H r Hin) as Hf. simpl in Hf.
    apply bool_decide_eq_false in Hf. apply Hf.
    unfold natural_key in Hk. inversion Hk. auto.
  - intros H. destruct (List.find _ l) as [r|] eqn:Hf; [|reflexivity].
    apply find_some in Hf as [Hin Hk]. apply bool_decide_eq_true in Hk as [Hb Hm].
    exfalso. apply (H r); [now apply list_elem_of_In|].
    unfold natural_key. congruence.
Qed.

Lemma register_found t c :
  is_Some (select_by_name (rows t) (candidate_key c).1 (candidate_key c).2) ->
  register t c = t.
Proof. unfold register, candidate_key. simpl. now intros [r ->]. Qed.

Lemma upsert_car_model_spec cands : forall t,
  exists created,
    rows (upsert_car_model cands t) = rows t ++ created
    /\ Forall (created_from t cands) created
    /\ NoDup (natural_key <$> created)
    /\ (forall c, c ∈ cands ->
          is_Some (select_by_name (rows (upsert_car_model cands t))
                     (candidate_key c).1 (candidate_key c).2)).
Proof.
  induction cands as [|c cs IH]; intros t; simpl.
  - exists []. rewrite app_nil_r. repeat split; try constructor.
    intros c Hc. inversion Hc.
  - destruct (IH (register t c)) as (created' & Hrows & Hcr & Hnd & Hreg).
    fold (upsert_car_model cs (register t c)) in *.
    assert (Hstep : exists new,
      rows (register t c) = rows t ++ new
      /\ Forall (created_from t (c :: cs)) new
      /\ (forall r, r ∈ new -> natural_key r = candidate_key c)
      /\ (length new ≤ 1)%nat
      /\ is_Some (select_by_name (rows (register t c))
                    (candidate_key c).1 (candidate_key c).2)).
    { unfold register, candidate_key; simpl.
      destruct (select_by_name (rows t) _ _) as [r|] eqn:Hsel.
      - exists []. rewrite app_nil_r, Hsel. repeat split; eauto.
        intros r0 Hr0. inversion Hr0.
      - eexists [_]. simpl. split; [reflexivity|]. split; [|split; [|split]].
        + constructor; [|constructor]. unfold created_from; simpl.
          repeat split; try assumption. left.
        + intros r0 Hr0. apply list_elem_of_singleton in Hr0. now subst.
        + lia.
        + rewrite select_by_name_app, Hsel. unfold select_by_name. simpl.
          rewrite bool_decide_eq_true_2 by auto. eauto. }
    destruct Hstep as (new & Hrows1 & Hnew & Hkeys & Hlen & Hc).
    exists (new ++ created'). split; [|split; [|split]].
    + rewrite Hrows, Hrows1. now rewrite <- app_assoc.
    + apply Forall_app. split; [assumption|].
      eapply Forall_impl; [exact Hcr|].
      intros r (Hid & Hurl & Hk & Hsel). repeat split; try assumption.
      * rewrite fmap_cons. now right.
      * rewrite Hrows1, select_by_name_app in Hsel.
        now destruct (select_by_name (rows t) _ _).
    + rewrite fmap_app. apply NoDup_app. split; [|split; [|assumption]].
      * destruct new as [|r1 [|r2 new]]; simpl in *; try lia;
          repeat constructor. intros H; inversion H.
      * intros k Hk1 Hk2.
        apply list_elem_of_fmap in Hk1 as (r1 & -> & Hr1).
        apply list_elem_of_fmap in Hk2 as (r2 & Hk2 & Hr2).
        rewrite Forall_forall in Hcr.
        destruct (Hcr r2 Hr2) as (_ & _ & _ & Hsel).
        rewrite select_by_name_None in Hsel. apply (Hsel r1).
        -- rewrite Hrows1. apply elem_of_app. now right.
        -- rewrite Hk2. reflexivity.
    + intros c' Hc'. apply elem_of_cons in Hc' as [->|Hc']; [|now apply Hreg].
      destruct Hc as [r Hr]. exists r.
      rewrite Hrows, select_by_name_app. simpl in Hr |- *. now rewrite Hr.
Qed.

Lemma upsert_car_model_noop cands : forall t,
  (forall c, c ∈ cands ->
     is_Some (select_by_name (rows t) (candidate_key c).1 (candidate_key c).2)) ->
  upsert_car_model cands t = t.
Proof.
  induction cands as [|c cs IH]; intros t Hall; simpl; [reflexivity|].
  rewrite register_found by (apply Hall; left). apply IH.
  intros c' Hc'. apply Hall. now right.
Qed.

(** C5: registration appends one entity, with null external identifier
    and URL, for each natural key among the candidates that has no
    entity yet (one per key), keeps every row already in the table as it
    is, registers every candidate, and changes nothing when run again
    with the same candidates. *)
Theorem C5_registration_idempotent (cands : list candidate) (t : car_model) :
  (exists created,
     rows (upsert_car_model cands t) = rows t ++ created
     /\ Forall (fun r =>
          danawa_model_id r = None /\ danawa_model_url r = None
          /\ natural_key r ∈ candidate_key <$> cands
          /\ select_by_name (rows t) (brand_name r) (model_name_kr r) = None) created
     /\ NoDup (natural_key <$> created))
  /\ (forall c, c ∈ cands ->
        is_Some (select_by_name (rows (upsert_car_model cands t))
                   (candidate_key c).1 (candidate_key c).2))
  /\ upsert_car_model cands (upsert_car_model cands t) = upsert_car_model cands t.
Proof.
  destruct (upsert_car_model_spec cands t) as (created & Hrows & Hcr & Hnd & Hreg).
  split; [|split].
  - exists created. auto.
  - exact Hreg.
  - now apply upsert_car_model_noop.
Qed.

End RegistrationFacts.

(** *** Model registry: enrichment *)

Section EnrichmentFacts.
Import Registry.
Context `{PyLib}.

Lemma NoDup_omap_inj {A B} (f : A -> option B) (l : list A) x y e :
  NoDup (omap f l) -> x ∈ l -> y ∈ l -> f x = Some e -> f y = Some e -> x = y.
Proof.
  induction l as [|a l IH]; intros Hnd Hx Hy Hfx Hfy.
  - inversion Hx.
  - assert (Hin : forall z, z ∈ l -> f z = Some e -> e ∈ omap f l).
    { intros z Hz Hfz. apply list_elem_of_omap. eauto. }
    csimpl in Hnd. apply elem_of_cons in Hx as [->|Hx];
      apply elem_of_cons in Hy as [->|Hy]; try reflexivity.
    + rewrite Hfx in Hnd. apply NoDup_cons in Hnd as [Hnotin _].
      exfalso. apply Hnotin. eauto.
    + rewrite Hfy in Hnd. apply NoDup_cons in Hnd as [Hnotin _].
      exfalso. apply Hnotin. eauto.
    + apply IH; auto. destruct (f a); [now apply NoDup_cons in Hnd as [_ ?]|assumption].
Qed.

Lemma NoDup_fmap_inj {A B} (f : A -> B) (l : list A) x y :
  NoDup (f <$> l) -> x ∈ l -> y ∈ l -> f x = f y -> x = y.
Proof.
  intros Hnd Hx Hy Hf.
  assert (Hnd' : NoDup (omap (fun a => Some (f a)) l)).
  { clear -Hnd. induction l as [|a l IH]; simpl in *; [constructor|].
    apply NoDup_cons in Hnd as [Hn Hnd]. apply NoDup_cons. split; [|auto].
    intros Hin. apply Hn. apply list_elem_of_omap in Hin as (z & Hz & Hfz).
    apply list_elem_of_fmap. exists z. split; [congruence|assumption]. }
  apply (NoDup_omap_inj (fun a => Some (f a)) l x y (f y) Hnd' Hx Hy);
    [now rewrite Hf | reflexivity].
Qed.

Lemma select_by_danawa_id_Some l e r :
  select_by_danawa_id l e = Some r -> r ∈ l /\ danawa_model_id r = Some e.
Proof.
  unfold select_by_danawa_id. intros Hf. apply find_some in Hf as [Hin Hk].
  apply bool_decide_eq_true in Hk. split; [now apply list_elem_of_In|assumption].
Qed.

Lemma select_by_danawa_id_None l e :
  select_by_danawa_id l e = None -> forall r, r ∈ l -> danawa_model_id r <> Some e.
Proof.
  unfold select_by_danawa_id. intros Hf r Hin%list_elem_of_In.
  pose proof (find_none _ _ Hf r Hin) as Hk. simpl in Hk.
  now apply bool_decide_eq_false in Hk.
Qed.

Lemma update_external_model_ids t mid id url :
  model_id <$> rows (update_external t mid id url) = model_id <$> rows t.
Proof.
  unfold update_external; simpl. induction (rows t) as [|r l IH]; csimpl; [reflexivity|].
  rewrite IH. f_equal. now destruct (decide _).
Qed.

Lemma update_external_keep_ids t mid url :
  omap danawa_model_id (rows (update_external t mid None url))
  = omap danawa_model_id (rows t).
Proof.
  unfold update_external; simpl. induction (rows t) as [|r l IH]; csimpl; [reflexivity|].
  rewrite IH. now destruct (decide _).
Qed.

Lemma update_external_same_ids (l : list car_model_row) mid e url :
  (forall r, r ∈ l -> model_id r = mid -> danawa_model_id r = Some e) ->
  omap danawa_model_id
    (map (fun r => if decide (model_id r = mid) then set_external (Some e) url r else r) l)
  = omap danawa_model_id l.
Proof.
  induction l as [|r l IH]; intros Hown; csimpl; [reflexivity|].
  rewrite IH by (intros r' Hr'; apply Hown; now right).
  destruct (decide (model_id r = mid)) as [Hm|Hm]; [|reflexivity].
  csimpl. now rewrite (Hown r (list_elem_of_here _ _) Hm).
Qed.

Lemma update_external_subset (l : list car_model_row) mid e url x :
  x ∈ omap danawa_model_id
        (map (fun r => if decide (model_id r = mid) then set_external (Some e) url r else r) l) ->
  x = e \/ x ∈ omap danawa_model_id l.
Proof.
  intros Hx. apply list_elem_of_omap in Hx as (r' & Hr' & Hid).
  apply list_elem_of_In, in_map_iff in Hr' as (r & <- & Hr%list_elem_of_In).
  destruct (decide (model_id r = mid)).
  - simpl in Hid. left. congruence.
  - right. apply list_elem_of_omap. eauto.
Qed.

Lemma update_external_fresh_id (l : list car_model_row) mid e url :
  NoDup (omap danawa_model_id l) ->
  (forall r, r ∈ l -> danawa_model_id r <> Some e) ->
  NoDup (model_id <$> l) ->
  NoDup (omap danawa_model_id
    (map (fun r => if decide (model_id r = mid) then set_external (Some e) url r else r) l)).
Proof.
  induction l as [|a l IH]; intros Hnd Hfresh Hpk; csimpl; [constructor|].
  csimpl in Hpk. apply NoDup_cons in Hpk as [Hpk_a Hpk].
  assert (Hnd_l : NoDup (omap danawa_model_id l)).
  { csimpl in Hnd. destruct (danawa_model_id a); [now apply NoDup_cons in Hnd as [_ ?]|assumption]. }
  assert (Hfresh_l : forall r, r ∈ l -> danawa_model_id r <> Some e).
  { intros r Hr. apply Hfresh. now right. }
  destruct (decide (model_id a = mid)) as [Hm|Hm].
  - assert (Hrest : map (fun r => if decide (model_id r = mid)
                                  then set_external (Some e) url r else r) l = l).
    { rewrite <- (map_id l) at 2. apply map_ext_in. intros r Hr%list_elem_of_In.
      destruct (decide (model_id r = mid)) as [Hr'|]; [|reflexivity].
      exfalso. apply Hpk_a. apply list_elem_of_fmap. exists r. split; [congruence|assumption]. }
    rewrite Hrest. csimpl. apply NoDup_cons. split; [|assumption].
    intros Hin. apply list_elem_of_omap in Hin as (r & Hr & Hid).
    now apply (Hfresh_l r).
  - specialize (IH Hnd_l Hfresh_l Hpk).
    destruct (danawa_model_id a) as [x|] eqn:Hx; [|assumption].
    apply NoDup_cons. split; [|assumption].
    intros Hin. apply update_external_subset in Hin as [->|Hin].
    + apply (Hfresh a); [left|assumption].
    + csimpl in Hnd. rewrite Hx in Hnd. now apply NoDup_cons in Hnd as [? _].
Qed.

(** Every call of [enrich] keeps the constraints of [car_model]. *)
Lemma enrich_well_formed kr st mr :
  well_formed (models st.1) -> well_formed (models (enrich kr st mr).1).
Proof.
  destruct st as [db stats]. intros [Hpk Hext]. unfold enrich. simpl.
  destruct (select_by_name _ _ _) as [row|]; [|split; assumption].
  assert (Hgoal : forall id,
    (id = None
     \/ (exists e, id = Some e /\ select_by_danawa_id (rows (models db)) e = None)
     \/ (exists e c, id = Some e /\ select_by_danawa_id (rows (models db)) e = Some c
                     /\ model_id c = model_id row)) ->
    well_formed (update_external (models db) (model_id row) id (detail_url mr))).
  { intros id Hid. split.
    - now rewrite update_external_model_ids.
    - destruct Hid as [->|[(e & -> & Hnone)|(e & c & -> & Hsome & Hc)]].
      + now rewrite update_external_keep_ids.
      + apply update_external_fresh_id; auto.
        now apply select_by_danawa_id_None.
      + unfold update_external; simpl. rewrite update_external_same_ids; auto.
        intros r Hr Hm. apply select_by_danawa_id_Some in Hsome as [Hcin Hce].
        assert (r = c) as ->; [|assumption].
        apply (NoDup_fmap_inj model_id (rows (models db))); auto. congruence. }
  destruct (extract_model_id_from_url (detail_url mr)) as [e|].
  - destruct (select_by_danawa_id _ e) as [c|] eqn:Hc.
    + destruct (decide (model_id c ≠ model_id row)) as [Hne|Heq].
      * destruct (image_url mr) as [[|? ?]|]; simpl; try case_bool_decide; simpl;
          apply Hgoal; auto.
      * apply dec_stable in Heq.
        destruct (image_url mr) as [[|? ?]|]; simpl; try case_bool_decide; simpl;
          apply Hgoal; right; right; eauto.
    + destruct (image_url mr) as [[|? ?]|]; simpl; try case_bool_decide; simpl;
        apply Hgoal; right; left; eauto.
  - destruct (image_url mr) as [[|? ?]|]; simpl; try case_bool_decide; simpl;
      apply Hgoal; auto.
Qed.

Lemma extract_Some_url url e :
  extract_model_id_from_url url = Some e -> exists c u, url = Some (c :: u).
Proof.
  unfold extract_model_id_from_url. destruct url as [[|c u]|]; try discriminate. eauto.
Qed.

Lemma in_map_fixed {A} (f : A -> A) (l : list A) x : x ∈ l -> f x = x -> x ∈ map f l.
Proof.
  intros Hin Hf. rewrite <- Hf. apply list_elem_of_In, in_map. now apply list_elem_of_In.
Qed.


(** C2: in a registry that meets the store's constraints, a call that
    resolves an entity Y and extracts an identifier E already held by a
    different entity X counts one collision, rewrites the row of Y only,
    and of it only the external URL, so that Y keeps the identifier it
    had (none, if it had none) and X stays as it is; and every call, of
    whatever outcome, keeps external identifiers unique. *)
Theorem C2_first_writer_wins :
  (forall kr db stats mr X Y E,
     well_formed (models db) ->
     X ∈ rows (models db) ->
     danawa_model_id X = Some E ->
     select_by_name (rows (models db))
       (default kr (BRAND_KR_MAP !! brand_code mr)) (model_name mr) = Some Y ->
     model_id Y <> model_id X ->
     extract_model_id_from_url (detail_url mr) = Some E ->
     danawa_id_conflict (enrich kr (db, stats) mr).2 = danawa_id_conflict stats + 1
     /\ rows (models (enrich kr (db, stats) mr).1)
        = map (fun r =>
                 if decide (r = Y)
                 then {| model_id := model_id Y;
                         brand_name := brand_name Y;
                         model_name_kr := model_name_kr Y;
                         danawa_model_id := danawa_model_id Y;
                         danawa_model_url := detail_url mr |}
                 else r)
              (rows (models db))
     /\ X ∈ rows (models (enrich kr (db, stats) mr).1))
  /\ (forall kr st mr,
        well_formed (models st.1) -> well_formed (models (enrich kr st mr).1)).
Proof.
  split; [|apply enrich_well_formed].
  intros kr db stats mr X Y E [Hpk Hext] HX HXid HY Hne HE.
  destruct (select_by_name_Some _ _ _ _ HY) as [HYin _].
  destruct (extract_Some_url _ _ HE) as (c0 & u0 & Hurl).
  assert (Hconf : exists c, select_by_danawa_id (rows (models db)) E = Some c
                            /\ model_id c ≠ model_id Y).
  { destruct (select_by_danawa_id (rows (models db)) E) as [c|] eqn:Hc.
    - exists c. split; [reflexivity|].
      apply select_by_danawa_id_Some in Hc as [Hcin Hcid].
      assert (c = X) as -> by (eapply NoDup_omap_inj; eauto).
      congruence.
    - exfalso. exact (select_by_danawa_id_None _ _ Hc X HX HXid). }
  destruct Hconf as (c & Hc & Hcne).
  assert (Hrows : forall l : list car_model_row,
    (forall r, r ∈ l -> r ∈ rows (models db)) ->
    map (fun r => if decide (model_id r = model_id Y)
                  then set_external None (detail_url mr) r else r) l
    = map (fun r =>
             if decide (r = Y)
             then {| model_id := model_id Y; brand_name := brand_name Y;
                     model_name_kr := model_name_kr Y;
                     danawa_model_id := danawa_model_id Y;
                     danawa_model_url := detail_url mr |}
             else r) l).
  { intros l Hl. apply map_ext_in. intros r Hr%list_elem_of_In.
    destruct (decide (model_id r = model_id Y)) as [Hm|Hm].
    - assert (r = Y) as -> by (eapply (NoDup_fmap_inj model_id); eauto).
      rewrite decide_True by reflexivity.
      unfold set_external. now rewrite Hurl.
    - rewrite decide_False by congruence. reflexivity. }
  assert (Hres :
    danawa_id_conflict (enrich kr (db, stats) mr).2 = danawa_id_conflict stats + 1
    /\ rows (models (enrich kr (db, stats) mr).1)
       = map (fun r => if decide (model_id r = model_id Y)
                       then set_external None (detail_url mr) r else r)
             (rows (models db))).
  { unfold enrich. rewrite HY, HE, Hc. rewrite decide_True by assumption.
    destruct (image_url mr) as [[|? ?]|]; simpl; try case_bool_decide; simpl;
      split; reflexivity. }
  destruct Hres as [Hcount Hmap]. rewrite Hmap, Hrows by auto.
  split; [assumption|]. split; [reflexivity|].
  apply in_map_fixed; [assumption|].
  rewrite decide_False; [reflexivity|]. congruence.
Qed.

End EnrichmentFacts.


Lemma C2_witness :
  let st := Registry.enrich (H := ascii_lib) (Py.lit "기아")
              (Registry.sample_db, Registry.initial_stats)
              (Registry.sample_meta "K8" (Some Registry.sample_url)) in
  Registry.danawa_id_conflict st.2 = 1
  /\ Registry.rows (Registry.models st.1)
     = [ {| Registry.model_id := 1; Registry.brand_name := Py.lit "기아";
            Registry.model_name_kr := Py.lit "K5";
            Registry.danawa_model_id := Some 33191;
            Registry.danawa_model_url :=
              Some (Py.lit "https://auto.danawa.com/auto/?Work=model&Model=33191") |};
         {| Registry.model_id := 2; Registry.brand_name := Py.lit "기아";
            Registry.model_name_kr := Py.lit "K8";
            Registry.danawa_model_id := None;
            Registry.danawa_model_url := Some Registry.sample_url |} ].
Proof.
  pose proof (proj1 (C2_first_writer_wins (H := ascii_lib)) (Py.lit "기아")
    Registry.sample_db Registry.initial_stats
    (Registry.sample_meta "K8" (Some Registry.sample_url))
    {| Registry.model_id := 1; Registry.brand_name := Py.lit "기아";
       Registry.model_name_kr := Py.lit "K5";
       Registry.danawa_model_id := Some 33191;
       Registry.danawa_model_url :=
         Some (Py.lit "https://auto.danawa.com/auto/?Work=model&Model=33191") |}
    {| Registry.model_id := 2; Registry.brand_name := Py.lit "기아";
       Registry.model_name_kr := Py.lit "K8";
       Registry.danawa_model_id := None;
       Registry.danawa_model_url := None |}
    33191) as Hthm.
  destruct Hthm as (Hcount & Hrows & _).
  - split; vm_compute; apply (bool_decide_unpack _); vm_compute; exact I.
  - left.
  - reflexivity.
  - vm_compute. reflexivity.
  - simpl. lia.
  - vm_compute. reflexivity.
  - split; [exact Hcount|]. rewrite Hrows. vm_compute. reflexivity.
Defined.

(** *** Sales loaders *)

Section SalesFacts.
Import Sales.
Context {F : Type} `{!FloatOps F} `{!PyLib}.

Lemma upsert_lookup (store : gmap (Z * pystr) (sales_fact F)) key new created :
  upsert store key new created !! key
  = Some (new (match store !! key with
               | Some old => created_at old
               | None => created
               end)).
Proof.
  unfold upsert. destruct (store !! key); now rewrite lookup_insert_eq.
Qed.

Lemma upsert_lookup_ne (store : gmap (Z * pystr) (sales_fact F)) key key' new created :
  key <> key' -> upsert store key new created !! key' = store !! key'.
Proof.
  intros Hne. unfold upsert. destruct (store !! key); now rewrite lookup_insert_ne.
Qed.

(** The total the loader keeps for a month is the sum over the rows of
    that month. *)
Lemma total_units_fold (rows : list (SalesRow F)) m : forall totals : gmap pystr Z,
  default 0
    (fold_left
       (fun totals sr => <[ month sr := default 0 (totals !! month sr) + sales_units sr ]> totals)
       rows totals !! m)
  = default 0 (totals !! m) + batch_total (filter (fun sr => month sr = m) rows).
Proof.
  induction rows as [|sr rows IH]; intros totals; simpl.
  - lia.
  - rewrite IH. rewrite filter_cons.
    destruct (decide (month sr = m)) as [Hm|Hm].
    + rewrite Hm, lookup_insert_eq. simpl. lia.
    + rewrite lookup_insert_ne by assumption. reflexivity.
Qed.

Lemma total_units_by_month_sum (rows : list (SalesRow F)) m :
  default 0 (total_units_by_month rows !! m)
  = batch_total (filter (fun sr => month sr = m) rows).
Proof.
  unfold total_units_by_month. rewrite total_units_fold, lookup_empty. simpl. lia.
Qed.

Lemma reconcile_fold_lookup models kr totals now (rows : list (SalesRow F)) mid m :
  forall store stats,
  (fold_left (reconcile models kr totals now) rows (store, stats)).1 !! (mid, m)
  = match last_for models kr mid m rows with
    | None => store !! (mid, m)
    | Some sr =>
        Some (fact_of_row (default 0 (totals !! m)) sr
                (match store !! (mid, m) with
                 | Some old => created_at old
                 | None => Some now
                 end))
    end.
Proof.
  induction rows as [|sr rows IH] using rev_ind; intros store stats.
  - reflexivity.
  - rewrite fold_left_app. simpl.
    destruct (fold_left (reconcile models kr totals now) rows (store, stats))
      as [store1 stats1] eqn:Hfold.
    specialize (IH store stats). rewrite Hfold in IH. simpl in IH.
    unfold last_for in *. rewrite filter_app, filter_cons, filter_nil.
    assert (Hres : resolve models kr sr
                   = Registry.model_id <$>
                       Registry.select_by_name models
                         (default kr (BRAND_KR_MAP !! brand_code sr)) (model_name sr))
      by reflexivity.
    unfold reconcile.
    destruct (Registry.select_by_name models _ (model_name sr)) as [row|] eqn:Hsel;
      simpl in Hres; simpl fst.
    + destruct (decide (resolve models kr sr = Some mid /\ month sr = m))
        as [[Hid Hm]|Hno].
      * rewrite Hres in Hid. inversion Hid; subst.
        rewrite last_snoc, upsert_lookup. f_equal. f_equal.
        rewrite IH. now destruct (last _).
      * rewrite app_nil_r. rewrite upsert_lookup_ne; [exact IH|].
        intros Heq. inversion Heq; subst. apply Hno. auto.
    + rewrite decide_False by (rewrite Hres; intros [? _]; discriminate).
      rewrite app_nil_r. exact IH.
Qed.

Lemma load_normalized_months month_date file code :
  Forall (fun sr : SalesRow F => month sr = month_date)
    (load_normalized_sales_csv month_date file code).
Proof.
  unfold load_normalized_sales_csv. apply Forall_forall. intros sr Hin.
  apply list_elem_of_omap in Hin as (r & _ & Hr).
  destruct (Py.is_empty _); [discriminate|].
  destruct (parse_int_from_str _); [|discriminate].
  now inversion Hr.
Qed.

Lemma filter_all {A} (P : A -> Prop) `{!forall x, Decision (P x)} (l : list A) :
  Forall P l -> filter P l = l.
Proof.
  induction 1 as [|x l Hx _ IH]; [reflexivity|].
  rewrite filter_cons, decide_True by assumption. now rewrite IH.
Qed.

(** What the store holds for a key after one batch of the loader of
    [load_danawa_sales_to_db.py]. *)
Lemma process_sales_rows_lookup models kr now (rows : list (SalesRow F)) store stats mid m :
  (process_sales_rows models kr now rows (store, stats)).1 !! (mid, m)
  = match last_for models kr mid m rows with
    | None => store !! (mid, m)
    | Some sr =>
        Some (fact_of_row (batch_total (filter (fun r => month r = m) rows)) sr
                (match store !! (mid, m) with
                 | Some old => created_at old
                 | None => Some now
                 end))
    end.
Proof.
  unfold process_sales_rows. destruct rows as [|sr0 rows0] eqn:Hrows; [reflexivity|].
  rewrite <- Hrows. rewrite reconcile_fold_lookup, total_units_by_month_sum. reflexivity.
Qed.

(** The loader of [load_danawa_sales_from_normalized.py] never stores a
    market total or an adoption rate. *)
Lemma load_sales_row_nulls (idmap : gmap (pystr * pystr) Z) (brand month_date : pystr)
    (dflt : option Z) (st : gmap (Z * pystr) (sales_fact F) * LoadCounts)
    (row : csv_row) (key : Z * pystr) :
  (load_sales_row idmap brand month_date dflt st row).1 !! key = st.1 !! key
  \/ exists units created,
       (load_sales_row idmap brand month_date dflt st row).1 !! key
       = Some {| fact_sales_units := units; market_total_units := None;
                 adoption_rate := None; source := DANAWA; created_at := created |}.
Proof.
  destruct st as [store counts]. unfold load_sales_row. simpl.
  destruct (Py.is_empty (Csv.get_stripped row "모델명")); [now left|].
  destruct (idmap !! _) as [mid|]; [|now left]. simpl.
  destruct (decide ((mid, month_date) = key)) as [<-|Hne].
  - right. rewrite upsert_lookup. eauto.
  - left. now apply upsert_lookup_ne.
Qed.

Lemma load_sales_rows_nulls (idmap : gmap (pystr * pystr) Z) (brand month_date : pystr)
    (dflt : option Z) (file : list csv_row) :
  forall st : gmap (Z * pystr) (sales_fact F) * LoadCounts,
  null_metrics_or st.1
    (fold_left (load_sales_row idmap brand month_date dflt) file st).1.
Proof.
  induction file as [|row file IH]; intros st key; simpl; [now left|].
  destruct (IH (load_sales_row idmap brand month_date dflt st row) key) as [Heq|Hex];
    [|now right].
  rewrite Heq. apply load_sales_row_nulls.
Qed.

Lemma load_sales_nulls (models : list Registry.car_model_row)
    (files : list (pystr * pystr * list csv_row)) (dflt : option Z)
    (store : gmap (Z * pystr) (sales_fact F)) :
  null_metrics_or store (load_sales models files dflt store).1.
Proof.
  unfold load_sales. generalize (build_model_id_map models) as idmap. intros idmap.
  generalize ({| count_total_rows := 0; inserted_rows := 0; skipped_no_model := 0 |}).
  intros counts. change store with (store, counts).1 at 1.
  generalize (store, counts) as st. clear store counts.
  induction files as [|[[brand month_date] file] files IH]; intros st key; simpl.
  - now left.
  - destruct (IH (fold_left (load_sales_row idmap brand month_date dflt) file st) key)
      as [Heq|Hex]; [|now right].
    rewrite Heq. apply load_sales_rows_nulls.
Qed.


End SalesFacts.


(** *** Rejected rows *)

Section RejectionFacts.
Import Py Normalizer.
Context {F : Type} `{!FloatOps F} `{!PyLib}.

Lemma strip_nil : strip [] = [].
Proof. reflexivity. Qed.

Lemma stripped_cell (row : list pystr) (i : nat) :
  default [] ((strip <$> row) !! i) = strip (default [] (row !! i)).
Proof. rewrite list_lookup_fmap. now destruct (row !! i). Qed.

Lemma normalize_row_short (row : list pystr) :
  (length row < 6)%nat -> normalize_row row = None.
Proof.
  intros Hlen. unfold normalize_row. destruct row as [|c row]; [reflexivity|].
  rewrite length_fmap.
  rewrite decide_False by lia. rewrite decide_False by lia. reflexivity.
Qed.

Lemma normalize_row_no_volume (row : list pystr) :
  digits_of (volume_cell row) = [] -> normalize_row row = None.
Proof.
  unfold volume_cell. intros Hvol. unfold normalize_row.
  destruct row as [|c row]; [reflexivity|]. rewrite length_fmap.
  set (raw := c :: row) in *.
  assert (Hparse : forall i, digits_of (default [] (raw !! i)) = [] ->
            parse_int_from_str (default [] ((strip <$> raw) !! i)) = None).
  { intros i Hi. rewrite stripped_cell, parse_int_from_str_digits, digits_of_strip.
    now rewrite Hi. }
  destruct (decide (7 ≤ length raw)%nat).
  - rewrite (Hparse 3%nat Hvol). now destruct (_ || _).
  - destruct (decide (6 ≤ length raw)%nat); [|reflexivity].
    rewrite (Hparse 2%nat Hvol). now destruct (_ || _).
Qed.

Lemma normalize_rows_app rows1 rows2 :
  normalize_rows (rows1 ++ rows2) = normalize_rows rows1 ++ normalize_rows rows2.
Proof.
  induction rows1 as [|r rows1 IH]; simpl; [reflexivity|].
  destruct r; [assumption|]. destruct (normalize_row _); [|assumption].
  simpl. now rewrite IH.
Qed.

Lemma normalize_rows_rejected rows1 r rows2 :
  normalize_row r = None ->
  normalize_rows (rows1 ++ r :: rows2) = normalize_rows (rows1 ++ rows2).
Proof.
  intros Hr. rewrite !normalize_rows_app. f_equal. simpl.
  destruct r; [reflexivity|]. now rewrite Hr.
Qed.

Lemma sales_parse_int_digits s :
  Sales.parse_int_from_str s
  = match digits_of s with
    | [] => None
    | ds => Some (decimal_value ds)
    end.
Proof.
  unfold Sales.parse_int_from_str.
  pose proof (digits_then_int s Some) as Hd. simpl in Hd. rewrite <- Hd.
  destruct (findall_digits (remove_commas s)); [reflexivity|].
  now destruct (int _).
Qed.

Lemma load_rejected (month_date : pystr) (file1 : list csv_row) (r : csv_row)
    (file2 : list csv_row) (code : pystr) :
  digits_of (Csv.get_stripped r "판매량") = [] ->
  Sales.load_normalized_sales_csv (F := F) month_date (file1 ++ r :: file2) code
  = Sales.load_normalized_sales_csv month_date (file1 ++ file2) code.
Proof.
  intros Hvol. unfold Sales.load_normalized_sales_csv.
  rewrite !omap_app. f_equal. simpl.
  rewrite sales_parse_int_digits, Hvol. now destruct (is_empty _).
Qed.


End RejectionFacts.



(** *** Interest loaders: the column-preserving merge *)

Section InterestMergeFacts.
Import Interest.
Context {F : Type} `{!FloatOps F}.

Implicit Types store : gmap (Z * pystr) (gmap string (cell F)).
Implicit Types key : Z * pystr.
Implicit Types col : string.
Implicit Types now : Z.

Lemma keeps_column_refl col store : keeps_column col store store.
Proof.
  intros key. unfold cell_at. destruct (store !! key) as [row|] eqn:Hk; simpl.
  - split; [eauto|reflexivity].
  - reflexivity.
Qed.

Lemma keeps_column_trans col store1 store2 store3 :
  keeps_column col store1 store2 -> keeps_column col store2 store3 ->
  keeps_column col store1 store3.
Proof.
  intros H12 H23 key. specialize (H12 key). specialize (H23 key).
  destruct (store1 !! key) as [row1|].
  - destruct H12 as [[row2 Hrow2] Hc12]. rewrite Hrow2 in H23.
    destruct H23 as [Hsome Hc23]. split; [assumption|].
    rewrite Hc23. unfold cell_at in Hc12. rewrite Hrow2 in Hc12. exact Hc12.
  - intros Hcol. specialize (H12 Hcol).
    destruct (store2 !! key) as [row2|] eqn:Hrow2.
    + destruct H23 as [_ Hc23]. rewrite Hc23.
      unfold cell_at in H12. rewrite Hrow2 in H12. exact H12.
    + auto.
Qed.

Lemma statement_keeps_column own (v : cell F) now col store key :
  col <> own ->
  keeps_column col store
    (insert_on_duplicate_update store key
       {[ own := v; "created_at" := CTime now ]} [own]).
Proof.
  intros Hcol key'. unfold insert_on_duplicate_update, cell_at.
  destruct (decide (key = key')) as [<-|Hne].
  - destruct (store !! key) as [row|] eqn:Hk; rewrite lookup_insert_eq; simpl.
    + split; [eauto|].
      destruct (({[own := v; "created_at" := CTime now]} : gmap string (cell F)) !! own);
        simpl; [now rewrite lookup_insert_ne | now rewrite lookup_delete_ne].
    + intros Hcreated.
      rewrite lookup_insert_ne by congruence.
      apply lookup_singleton_ne. congruence.
  - assert (Hsame : forall x, (<[key := x]> store) !! key' = store !! key')
      by (intros; now apply lookup_insert_ne).
    destruct (store !! key) as [row|]; rewrite Hsame;
      (destruct (store !! key') as [row'|]; simpl; [split; [eauto|reflexivity]|reflexivity]).
Qed.

Lemma statement_sets_column own (v : cell F) now store key :
  cell_at (insert_on_duplicate_update store key
             {[ own := v; "created_at" := CTime now ]} [own]) key own
  = Some v.
Proof.
  unfold insert_on_duplicate_update, cell_at.
  destruct (store !! key) as [row|]; rewrite lookup_insert_eq; simpl.
  - rewrite lookup_insert_eq. simpl. apply lookup_insert_eq.
  - apply lookup_insert_eq.
Qed.

Lemma naver_fold_keeps_column col now (points : list (InterestPoint F)) :
  col <> "naver_index" -> forall store,
  keeps_column col store (fold_left (fun store p => naver_statement store now p) points store).
Proof.
  intros Hcol. induction points as [|p points IH]; intros store; simpl.
  - apply keeps_column_refl.
  - eapply keeps_column_trans; [|apply IH].
    now apply statement_keeps_column.
Qed.

Lemma upsert_naver_keeps_column col now points store :
  col <> "naver_index" ->
  keeps_column col store (upsert_naver_interest points store now).
Proof.
  intros Hcol. unfold upsert_naver_interest. destruct points.
  - apply keeps_column_refl.
  - now apply naver_fold_keeps_column.
Qed.

Lemma google_row_keeps_column col now
    (st : gmap (Z * pystr) (gmap string (cell F)) * Z) (row : csv_row)
    (st' : gmap (Z * pystr) (gmap string (cell F)) * Z) :
  col <> "google_trend_index" ->
  google_row now st row = Ok st' -> keeps_column col st.1 st'.1.
Proof.
  intros Hcol. unfold google_row.
  destruct (int_field row "model_id") as [id|[]]; simpl;
    try (intros [= <-]; apply keeps_column_refl); try discriminate.
  destruct (field row "month") as [[m|]|[]]; simpl;
    try (intros [= <-]; apply keeps_column_refl); try discriminate.
  - destruct (int_field row "google_trend_index") as [g|[]]; simpl;
      try (intros [= <-]; apply keeps_column_refl); try discriminate.
    intros [= <-]. simpl. now apply statement_keeps_column.
  - destruct (int_field row "google_trend_index") as [g|[]]; simpl;
      try (intros [= <-]; apply keeps_column_refl); try discriminate.
Qed.

Lemma google_rows_keeps_column col now (rows : list csv_row) :
  forall st st' : gmap (Z * pystr) (gmap string (cell F)) * Z,
  col <> "google_trend_index" ->
  google_rows now st rows = Ok st' -> keeps_column col st.1 st'.1.
Proof.
  induction rows as [|row rows IH]; intros st st' Hcol; simpl.
  - intros [= <-]. apply keeps_column_refl.
  - destruct (google_row now st row) as [st1|e] eqn:Hrow; simpl; [|discriminate].
    intros Hrest. eapply keeps_column_trans.
    + eapply google_row_keeps_column; eauto.
    + eapply IH; eauto.
Qed.

Lemma load_google_keeps_column col now (rows : list csv_row) store store' :
  col <> "google_trend_index" ->
  load_google_trend rows store now = Ok store' -> keeps_column col store store'.
Proof.
  intros Hcol. unfold load_google_trend.
  destruct (google_rows now (store, 0) rows) as [st|e] eqn:Hrows; simpl; [|discriminate].
  intros [= <-]. now apply (google_rows_keeps_column col now rows (store, 0) st).
Qed.

Lemma keeps_column_value col store store' key x :
  keeps_column col store store' ->
  cell_at store key col = Some x -> cell_at store' key col = Some x.
Proof.
  intros Hk Hx. specialize (Hk key). unfold cell_at in Hx.
  destruct (store !! key) as [row|]; [|discriminate].
  destruct Hk as [_ ->]. exact Hx.
Qed.


End InterestMergeFacts.


(** *** Naver loader: aggregation before the write *)

Section NaverAggregationFacts.
Import Interest.
Context {F : Type} `{!FloatOps F}.

Implicit Types bucket : list ((Z * pystr) * list F).
Implicit Types key : Z * pystr.
Implicit Types store : gmap (Z * pystr) (gmap string (cell F)).
Implicit Types now : Z.

Lemma read_row_cases bucket (row : csv_row) :
  read_row bucket row
  = match stops row with
    | Some e => Raise e
    | None => Ok (add_reading bucket row)
    end.
Proof.
  unfold read_row, stops, add_reading, reading, int_field.
  destruct (row !! Py.lit "model_id") as [[id_str|]|]; try reflexivity.
  destruct (Py.int id_str) as [id|]; try reflexivity.
  destruct (Py.is_empty _ || Py.is_empty _); try reflexivity.
  unfold month_from_date. destruct (decide _); simpl; [|reflexivity].
  now destruct (float_of_str _).
Qed.

Lemma read_rows_cases (rows : list csv_row) : forall bucket,
  read_rows bucket rows
  = match first_stop rows with
    | Some e => Raise e
    | None => Ok (fold_left add_reading rows bucket)
    end.
Proof.
  induction rows as [|row rows IH]; intros bucket; simpl; [reflexivity|].
  rewrite read_row_cases. destruct (stops row); simpl; [reflexivity|]. apply IH.
Qed.

Lemma bucket_get_None bucket key :
  bucket_get bucket key = None <-> key ∉ fst <$> bucket.
Proof.
  unfold bucket_get. induction bucket as [|[k rs] bucket IH]; csimpl.
  - split; [intros _ H; inversion H | reflexivity].
  - case_bool_decide as Hk; simpl in *.
    + subst. split; [discriminate|]. intros H. exfalso. apply H. left.
    + rewrite IH. rewrite not_elem_of_cons. split; [intros; split; auto|tauto].
Qed.

Lemma bucket_get_Some bucket key rs :
  bucket_get bucket key = Some rs -> (key, rs) ∈ bucket.
Proof.
  unfold bucket_get. destruct (List.find _ bucket) as [[k rs']|] eqn:Hf; [|discriminate].
  simpl. intros [= ->]. apply find_some in Hf as [Hin Hk].
  apply bool_decide_eq_true in Hk. simpl in Hk. subst. now apply list_elem_of_In.
Qed.

Lemma find_over_app {A} (f : A -> bool) (l l' : list A) :
  List.find f (l ++ l')
  = match List.find f l with
    | Some x => Some x
    | None => List.find f l'
    end.
Proof. induction l as [|x l IH]; simpl; [reflexivity|]. now destruct (f x). Qed.

Lemma bucket_get_map_other bucket key (ratio : F) key' :
  key <> key' ->
  bucket_get
    (map (fun e => if bool_decide (fst e = key) then (fst e, snd e ++ [ratio]) else e) bucket)
    key'
  = bucket_get bucket key'.
Proof.
  intros Hne. unfold bucket_get.
  induction bucket as [|[k rs] bucket IH]; simpl; [reflexivity|].
  destruct (bool_decide (k = key)) eqn:Hk; simpl.
  - apply bool_decide_eq_true in Hk. subst k.
    rewrite bool_decide_eq_false_2 by assumption. exact IH.
  - destruct (bool_decide (k = key')); [reflexivity|exact IH].
Qed.

Lemma bucket_get_map_same bucket key (ratio : F) :
  bucket_get
    (map (fun e => if bool_decide (fst e = key) then (fst e, snd e ++ [ratio]) else e) bucket)
    key
  = (fun rs => rs ++ [ratio]) <$> bucket_get bucket key.
Proof.
  unfold bucket_get.
  induction bucket as [|[k rs] bucket IH]; simpl; [reflexivity|].
  destruct (bool_decide (k = key)) eqn:Hk; simpl.
  - now rewrite Hk.
  - rewrite Hk. exact IH.
Qed.

Lemma bucket_get_append bucket key ratio key' :
  bucket_get (bucket_append bucket key ratio) key'
  = if decide (key = key')
    then Some (default [] (bucket_get bucket key) ++ [ratio])
    else bucket_get bucket key'.
Proof.
  unfold bucket_append.
  destruct (bucket_get bucket key) as [rs|] eqn:Hget.
  - destruct (decide (key = key')) as [<-|Hne].
    + now rewrite bucket_get_map_same, Hget.
    + now apply bucket_get_map_other.
  - simpl. apply bucket_get_None in Hget. unfold bucket_get in *.
    rewrite find_over_app.
    destruct (decide (key = key')) as [<-|Hne].
    + destruct (List.find _ bucket) as [[k rs]|] eqn:Hf.
      * exfalso. apply find_some in Hf as [Hin Hk].
        apply bool_decide_eq_true in Hk. simpl in Hk. subst.
        apply Hget. apply list_elem_of_fmap. exists (key, rs).
        split; [reflexivity|now apply list_elem_of_In].
      * simpl. rewrite bool_decide_eq_true_2 by reflexivity. reflexivity.
    + destruct (List.find _ bucket); [reflexivity|].
      simpl. rewrite bool_decide_eq_false_2 by assumption. reflexivity.
Qed.

Lemma bucket_append_keys bucket key ratio :
  fst <$> bucket_append bucket key ratio
  = match bucket_get bucket key with
    | Some _ => fst <$> bucket
    | None => (fst <$> bucket) ++ [key]
    end.
Proof.
  unfold bucket_append. destruct (bucket_get bucket key).
  - induction bucket as [|[k rs] bucket IH]; csimpl; [reflexivity|].
    rewrite IH. now destruct (bool_decide _).
  - now rewrite fmap_app.
Qed.

Lemma bucket_append_ok bucket key ratio :
  bucket_ok bucket -> bucket_ok (bucket_append bucket key ratio).
Proof.
  intros [Hnd Hne]. split.
  - rewrite bucket_append_keys. destruct (bucket_get bucket key) eqn:Hget; [assumption|].
    apply bucket_get_None in Hget. apply NoDup_app. split; [assumption|].
    split; [|apply NoDup_singleton].
    intros k Hk Hk'. apply list_elem_of_singleton in Hk'. now subst.
  - unfold bucket_append. destruct (bucket_get bucket key).
    + apply Forall_forall. intros e He.
      apply list_elem_of_In, in_map_iff in He as (e0 & <- & He0%list_elem_of_In).
      rewrite Forall_forall in Hne. specialize (Hne e0 He0).
      destruct (bool_decide _); simpl; [|assumption].
      intros Happ. now apply app_eq_nil in Happ as [_ ?].
    + apply Forall_app. split; [assumption|]. constructor; [discriminate|constructor].
Qed.

Lemma add_reading_ok bucket row : bucket_ok bucket -> bucket_ok (add_reading bucket row).
Proof.
  unfold add_reading. destruct (reading row) as [[k r]|]; [|auto].
  apply bucket_append_ok.
Qed.

Lemma fold_add_reading_ok (rows : list csv_row) : forall bucket,
  bucket_ok bucket -> bucket_ok (fold_left add_reading rows bucket).
Proof.
  induction rows as [|row rows IH]; intros bucket Hok; simpl; [assumption|].
  apply IH. now apply add_reading_ok.
Qed.

Lemma ratios_for_cons key (row : csv_row) (rows : list csv_row) :
  ratios_for (F := F) key (row :: rows)
  = match reading row with
    | Some (k, ratio) => if bool_decide (k = key) then ratio :: ratios_for key rows
                         else ratios_for key rows
    | None => ratios_for key rows
    end.
Proof.
  unfold ratios_for. csimpl. destruct (reading row) as [[k r]|]; [|reflexivity].
  now destruct (bool_decide _).
Qed.

(** The list a key has in the bucket after reading: what it had, then
    the ratios read for it, in the order of the file. *)
Lemma fold_add_reading_get (rows : list csv_row) key : forall bucket,
  default [] (bucket_get (fold_left add_reading rows bucket) key)
  = default [] (bucket_get bucket key) ++ ratios_for key rows.
Proof.
  induction rows as [|row rows IH]; intros bucket.
  - simpl. now rewrite app_nil_r.
  - cbn [fold_left]. rewrite IH, ratios_for_cons. unfold add_reading.
    destruct (reading row) as [[k r]|]; [|reflexivity].
    rewrite bucket_get_append. case_bool_decide as Hk.
    + subst. rewrite decide_True by reflexivity. simpl. now rewrite <- app_assoc.
    + now rewrite decide_False by assumption.
Qed.

Lemma points_of_bucket_ok bucket :
  bucket_ok bucket ->
  points_of_bucket bucket
  = map (fun e => {| model_id := fst (fst e); month := snd (fst e);
                     naver_index := average (snd e) |}) bucket.
Proof.
  intros [_ Hne]. unfold points_of_bucket.
  induction Hne as [|[k rs] bucket Hrs _ IH]; csimpl; [reflexivity|].
  rewrite IH. simpl in Hrs. now destruct rs.
Qed.

Lemma naver_statement_other store now (p : InterestPoint F) key :
  point_key p <> key -> naver_statement store now p !! key = store !! key.
Proof.
  intros Hne. unfold naver_statement, insert_on_duplicate_update.
  fold (point_key p). destruct (store !! point_key p); now rewrite lookup_insert_ne.
Qed.

Lemma naver_fold_other now (points : list (InterestPoint F)) key : forall store,
  key ∉ point_key <$> points ->
  fold_left (fun store p => naver_statement store now p) points store !! key
  = store !! key.
Proof.
  induction points as [|p points IH]; intros store Hnot; simpl; [reflexivity|].
  rewrite fmap_cons in Hnot. apply not_elem_of_cons in Hnot as [Hp Hrest].
  rewrite IH by assumption. apply naver_statement_other. congruence.
Qed.

Lemma naver_fold_written now (points : list (InterestPoint F)) (p : InterestPoint F) :
  forall store,
  NoDup (point_key <$> points) -> p ∈ points ->
  cell_at (fold_left (fun store p => naver_statement store now p) points store)
    (point_key p) "naver_index"
  = Some (CFloat (naver_index p)).
Proof.
  induction points as [|q points IH]; intros store Hnd Hin; [inversion Hin|].
  rewrite fmap_cons in Hnd. apply NoDup_cons in Hnd as [Hq Hnd].
  simpl. apply elem_of_cons in Hin as [->|Hin].
  - unfold cell_at. rewrite naver_fold_other by assumption.
    apply (statement_sets_column "naver_index").
  - now apply IH.
Qed.

Lemma upsert_naver_fold points store now :
  upsert_naver_interest points store now
  = fold_left (fun store p => naver_statement store now p) points store.
Proof. now destruct points. Qed.

(** What the run leaves in the store, key by key. *)
Lemma naver_run_store (rows : list csv_row) store now key :
  first_stop rows = None ->
  exists store',
    run_naver_loader rows store now = Ok store'
    /\ match ratios_for key rows with
       | [] => store' !! key = store !! key
       | ratios => cell_at store' key "naver_index" = Some (CFloat (average ratios))
       end.
Proof.
  intros Hstop. unfold run_naver_loader, load_raw_csv.
  rewrite read_rows_cases, Hstop. simpl. eexists. split; [reflexivity|].
  set (bucket := fold_left add_reading rows []).
  assert (Hok : bucket_ok bucket).
  { apply fold_add_reading_ok. split; constructor. }
  pose proof (fold_add_reading_get rows key []) as Hget. fold bucket in Hget.
  simpl in Hget. rewrite upsert_naver_fold, (points_of_bucket_ok _ Hok).
  assert (Hkeys : point_key <$>
            map (fun e => {| model_id := fst (fst e); month := snd (fst e);
                             naver_index := average (snd e) |}) bucket
          = fst <$> bucket).
  { clear. induction bucket as [|[[i m] rs] bucket IH]; csimpl; [reflexivity|].
    now rewrite IH. }
  destruct (bucket_get bucket key) as [rs|] eqn:Hb; simpl in Hget.
  - rewrite <- Hget. apply bucket_get_Some in Hb.
    destruct Hok as [Hnd Hne]. rewrite Forall_forall in Hne.
    pose proof (Hne _ Hb) as Hrs. simpl in Hrs.
    destruct rs as [|r rs]; [contradiction|].
    pose proof (naver_fold_written now
      (map (fun e => {| model_id := fst (fst e); month := snd (fst e);
                        naver_index := average (snd e) |}) bucket)
      {| model_id := fst key; month := snd key; naver_index := average (r :: rs) |}
      store) as Hw.
    unfold point_key at 2 in Hw. simpl in Hw. rewrite <- surjective_pairing in Hw.
    apply Hw.
    + now rewrite Hkeys.
    + apply list_elem_of_In, in_map_iff. exists (key, r :: rs).
      split; [reflexivity|now apply list_elem_of_In].
  - rewrite <- Hget. apply naver_fold_other. rewrite Hkeys.
    now apply bucket_get_None.
Qed.


End NaverAggregationFacts.

